(** * CopyCat: single-instance guard, clipboard typer and hotkey dispatch

    A shallow embedding of [main.pyw].  Every function of the script that
    talks to the operating system or to a third-party package is written
    as a small program over an explicit list of calls; the calls are given
    a meaning by an interpreter over a model of the host (the advisory
    lock on the lock file, the file objects of a process, the clipboard,
    the keyboard-emulation output and the console). *)

From Stdlib Require Import Ascii String ZArith Lia.
From stdpp Require Import gmap strings list.

#[global] Set Warnings "-clear-no-such-hyp".

(** ** The fragment of the Python runtime the script relies on *)

Module Py.

(** Exception classes that occur in the script or are raised by the
    calls it makes.  [IOError] is an alias of [OSError] in Python 3;
    [UnicodeEncodeError], which [print] raises when the console cannot
    encode a character, is a [ValueError]. *)
Inductive exn : Type :=
| OSError | BlockingIOError | PermissionError | FileNotFoundError
| ImportError | ValueError | AttributeError | TypeError | RuntimeError
| UnicodeEncodeError | PyperclipException | FailSafeException
| KeyboardInterrupt | SystemExit (code : Z) | GeneratorExit.

(** [isinstance(e, OSError)] *)
Definition is_OSError (e : exn) : bool :=
  match e with
  | OSError | BlockingIOError | PermissionError | FileNotFoundError => true
  | _ => false
  end.

(** [isinstance(e, Exception)]: everything but the three classes that
    derive from [BaseException] directly. *)
Definition is_Exception (e : exn) : bool :=
  match e with
  | KeyboardInterrupt | SystemExit _ | GeneratorExit => false
  | _ => true
  end.

Definition is_ImportError (e : exn) : bool :=
  match e with ImportError => true | _ => false end.

Definition is_KeyboardInterrupt (e : exn) : bool :=
  match e with KeyboardInterrupt => true | _ => false end.

Definition is_FailSafeException (e : exn) : bool :=
  match e with FailSafeException => true | _ => false end.

Definition is_AttributeError_or_RuntimeError (e : exn) : bool :=
  match e with AttributeError | RuntimeError => true | _ => false end.

(** What a call or a function body ends with. *)
Inductive outcome (A : Type) : Type :=
| Return (a : A)
| Raise (e : exn).
Arguments Return {A} a.
Arguments Raise {A} e.

(** The values [pyperclip.paste()] can hand back. *)
Inductive value : Type :=
| PyNone
| PyStr (s : string).

(** Truth value of an object, as [if not text] tests it. *)
Definition truthy (v : value) : bool :=
  match v with
  | PyNone => false
  | PyStr EmptyString => false
  | PyStr (String _ _) => true
  end.

Definition LF : ascii := "010"%char.

(** [s.split(sep)] for a one-character separator: the pieces between
    the separators, in order, empty pieces kept. *)
Fixpoint str_split (sep : ascii) (s : string) : list string :=
  match s with
  | EmptyString => [EmptyString]
  | String c rest =>
      if Ascii.eqb c sep then EmptyString :: str_split sep rest
      else match str_split sep rest with
           | [] => [String c EmptyString]
           | piece :: pieces => String c piece :: pieces
           end
  end.

(** [v.split(sep)] on an arbitrary value: [None] has no such method. *)
Definition split (v : value) (sep : ascii) : outcome (list string) :=
  match v with
  | PyNone => Raise AttributeError
  | PyStr s => Return (str_split sep s)
  end.

(** [s.count(c)] *)
Fixpoint str_count (c : ascii) (s : string) : nat :=
  match s with
  | EmptyString => 0
  | String d rest => (if Ascii.eqb d c then 1 else 0) + str_count c rest
  end.

End Py.
Export Py.

(** ** Configuration constants of the script *)

Definition HOTKEY : string := "<ctrl>+<alt>+t".
(** [TYPING_DELAY = 0.5] seconds, kept in milliseconds. *)
Definition TYPING_DELAY : nat := 500.
Definition TYPING_INTERVAL : nat := 0.
(** [os.path.join(tempfile.gettempdir(), "copycat.lock")]; the temporary
    directory is one fixed directory per machine. *)
Definition LOCK_FILE : string := "copycat.lock".

(** ** Calls the script makes *)

Inductive pymodule : Type := msvcrt | fcntl.
Inductive platform : Type := Win32 | Posix.
Inductive lock_mode : Type := LK_NBLCK | LK_UNLCK.
Inductive flock_op : Type := LOCK_EX_NB | LOCK_UN.
(** Functions of the script that are handed to the runtime as objects. *)
Inductive callback : Type := cb_release_lock | cb_start_hotkey_listener | cb_quit_app.

(** Console messages; [{e}] of an f-string is kept as the exception. *)
Inductive message : Type :=
| Msg (text : string)
| MsgExn (text : string) (e : exn).

(** Whether a text is made of ASCII characters only (a string is kept
    as the bytes of its UTF-8 form, as the source file has it). *)
Fixpoint is_ascii_text (s : string) : bool :=
  match s with
  | EmptyString => true
  | String c rest => Nat.ltb (nat_of_ascii c) 128 && is_ascii_text rest
  end.

Definition message_is_ascii (msg : message) : bool :=
  match msg with
  | Msg text | MsgExn text _ => is_ascii_text text
  end.

Inductive call : Type -> Type :=
| Import (m : pymodule) : call unit
| Open (path : string) : call nat
| Fileno (f : nat) : call nat
| MsvcrtLocking (fd : nat) (mode : lock_mode) (nbytes : nat) : call unit
| FcntlFlock (f : nat) (op : flock_op) : call unit
| Close (f : nat) : call unit
| OsRemove (path : string) : call unit
| AtexitRegister (cb : callback) : call unit
| GetLockHandle : call (option nat)
| SetLockHandle (f : nat) : call unit
| Print (m : message) : call unit
| Sleep (ms : nat) : call unit
| Paste : call value
| Write (line : string) (interval : nat) : call unit
| PressHotkey (keys : list string) : call unit
| ThreadStart (target : callback) (daemon : bool) : call unit
| ImageOpen (path : string) : call unit
| DrawFallbackIcon : call unit
| IconCreate (name : string) (menu : callback) : call unit
| GetIcon : call bool
| IconRun : call unit
| IconStop : call unit.

(** A function body: it returns, raises, or makes a call and goes on
    with what the call gave back. *)
Inductive prog (A : Type) : Type :=
| Ret (a : A)
| Throw (e : exn)
| Do {X : Type} (c : call X) (k : outcome X -> prog A).
Arguments Ret {A} a.
Arguments Throw {A} e.
Arguments Do {A X} c k.

Fixpoint bind {A B} (p : prog A) (f : A -> prog B) : prog B :=
  match p with
  | Ret a => f a
  | Throw e => Throw e
  | Do c k => Do c (fun o => bind (k o) f)
  end.

(** A call whose exception, if any, is simply raised further. *)
Definition perform {X} (c : call X) : prog X :=
  Do c (fun o => match o with Return x => Ret x | Raise e => Throw e end).

Declare Scope prog_scope.
Delimit Scope prog_scope with prog.
Notation "x <- p ;; q" := (bind p (fun x => q))
  (at level 100, p at next level, q at level 200, right associativity,
   only parsing) : prog_scope.
Notation "p ;; q" := (bind p (fun _ => q))
  (at level 100, q at level 200, right associativity, only parsing)
  : prog_scope.
Open Scope prog_scope.

(** The exit of [with open(...) as f]: the file is closed whichever way
    the block is left; an exception of the close replaces the pending
    return value or exception. *)
Fixpoint closing {A} (f : nat) (body : prog A) : prog A :=
  match body with
  | Ret a => Do (Close f) (fun o =>
      match o with Return _ => Ret a | Raise e => Throw e end)
  | Throw e => Do (Close f) (fun o =>
      match o with Return _ => Throw e | Raise e' => Throw e' end)
  | Do c k => Do c (fun o => closing f (k o))
  end.

Definition with_open {A} (path : string) (body : nat -> prog A) : prog A :=
  f <- perform (Open path) ;; closing f (body f).

(** [try: body except C1: h1 except C2: h2 ...]: the first clause whose
    classes contain the exception handles it; what a handler raises is
    not offered to its sibling clauses. *)
Fixpoint dispatch {A} (clauses : list ((exn -> bool) * (exn -> prog A)))
    (e : exn) : prog A :=
  match clauses with
  | [] => Throw e
  | (classes, handler) :: others =>
      if classes e then handler e else dispatch others e
  end.

Fixpoint try_ {A} (body : prog A)
    (clauses : list ((exn -> bool) * (exn -> prog A))) : prog A :=
  match body with
  | Ret a => Ret a
  | Throw e => dispatch clauses e
  | Do c k => Do c (fun o => try_ (k o) clauses)
  end.

(** ** The host: one process and the machine's lock on the lock file *)

Record file_obj : Type := FileObj { fo_fd : nat; fo_closed : bool }.

(** What the process does that an observer can see, in order. *)
Inductive event : Type :=
| EPrint (m : message)
| ESleep (ms : nat)
| EWrite (line : string) (interval : nat)
| EHotkey (keys : list string)
| EThreadStart (target : callback) (daemon : bool)
| EIconCreate
| EIconRun
| EIconStop.

(** The part of the machine the processes share: which open file
    (process id, file descriptor) holds the exclusive lock on the lock
    file, whether the file exists, which locking modules can be
    imported. *)
Record machine : Type := Machine {
  lock_owner : option (nat * nat);
  lock_file_exists : bool;
  available : pymodule -> bool
}.

(** One Python process: its two globals, its file objects (a file
    object is referred to by its index), the functions registered with
    [atexit], the clipboard it reads, what it has done so far, and the
    failures the outside world injects: [faults n] is the exception, if
    any, that the n-th call to the operating system or to a package
    raises. *)
Record proc : Type := Proc {
  pid : nat;
  LOCK_FILE_HANDLE : option nat;
  ICON_INSTANCE : bool;
  files : list file_obj;
  atexit_funcs : list callback;
  clipboard : value;
  trace : list event;
  faults : nat -> option exn;
  tick : nat
}.

Definition set_handle (h : option nat) (w : proc) : proc :=
  Proc (pid w) h (ICON_INSTANCE w) (files w) (atexit_funcs w) (clipboard w)
       (trace w) (faults w) (tick w).
Definition set_icon (b : bool) (w : proc) : proc :=
  Proc (pid w) (LOCK_FILE_HANDLE w) b (files w) (atexit_funcs w) (clipboard w)
       (trace w) (faults w) (tick w).
Definition set_files (fs : list file_obj) (w : proc) : proc :=
  Proc (pid w) (LOCK_FILE_HANDLE w) (ICON_INSTANCE w) fs (atexit_funcs w)
       (clipboard w) (trace w) (faults w) (tick w).
Definition set_atexit (cbs : list callback) (w : proc) : proc :=
  Proc (pid w) (LOCK_FILE_HANDLE w) (ICON_INSTANCE w) (files w) cbs
       (clipboard w) (trace w) (faults w) (tick w).
Definition emit (ev : event) (w : proc) : proc :=
  Proc (pid w) (LOCK_FILE_HANDLE w) (ICON_INSTANCE w) (files w)
       (atexit_funcs w) (clipboard w) (trace w ++ [ev]) (faults w) (tick w).
Definition ticked (w : proc) : proc :=
  Proc (pid w) (LOCK_FILE_HANDLE w) (ICON_INSTANCE w) (files w)
       (atexit_funcs w) (clipboard w) (trace w) (faults w) (S (tick w)).

Definition set_owner (o : option (nat * nat)) (m : machine) : machine :=
  Machine o (lock_file_exists m) (available m).
Definition set_exists (b : bool) (m : machine) : machine :=
  Machine (lock_owner m) b (available m).

Definition owner_is (m : machine) (p fd : nat) : bool :=
  match lock_owner m with
  | Some (p', fd') => Nat.eqb p' p && Nat.eqb fd' fd
  | None => false
  end.

(** Dropping the lock if this very open file holds it. *)
Definition unlock_if_owner (p fd : nat) (m : machine) : machine :=
  if owner_is m p fd then set_owner None m else m.

(** A non-blocking exclusive lock attempt by open file [(p, fd)]. *)
Definition try_lock (p fd : nat) (m : machine) : option machine :=
  match lock_owner m with
  | None => Some (set_owner (Some (p, fd)) m)
  | Some _ => if owner_is m p fd then Some m else None
  end.

Definition fd_is_open (w : proc) (fd : nat) : bool :=
  existsb (fun f => Nat.eqb (fo_fd f) fd && negb (fo_closed f)) (files w).

Definition close_file (f : nat) (w : proc) : proc :=
  match files w !! f with
  | Some fo => set_files (<[f := FileObj (fo_fd fo) true]> (files w)) w
  | None => w
  end.

(** A call to the outside: the injected failure, if there is one for
    this call, is raised; [failed] says what the failing call has done
    to the host all the same. *)
Definition outside {X} (m : machine) (w : proc)
    (normal : proc -> machine * proc * outcome X)
    (failed : proc -> machine * proc) : machine * proc * outcome X :=
  match faults w (tick w) with
  | Some e => (failed (ticked w), Raise e)
  | None => normal (ticked w)
  end.

Definition exec_close (f : nat) (m : machine) (w : proc) : machine * proc :=
  match files w !! f with
  | Some fo =>
      if fo_closed fo then (m, w)
      else (unlock_if_owner (pid w) (fo_fd fo) m, close_file f w)
  | None => (m, w)
  end.

(** The meaning of each call.  Reading and writing a global are taken
    to succeed, and so is printing a message of ASCII characters; every
    other call may fail, and among them the print of a message with other
    characters, which the console may be unable to encode. *)
Definition exec {X} (c : call X) (m : machine) (w : proc)
  : machine * proc * outcome X :=
  match c in call X return machine * proc * outcome X with
  | GetLockHandle => (m, w, Return (LOCK_FILE_HANDLE w))
  | SetLockHandle f => (m, set_handle (Some f) w, Return tt)
  | GetIcon => (m, w, Return (ICON_INSTANCE w))
  | Print msg =>
      if message_is_ascii msg then (m, emit (EPrint msg) w, Return tt)
      else outside m w (fun w => (m, emit (EPrint msg) w, Return tt))
             (fun w => (m, w))
  | Import md =>
      outside m w
        (fun w => (m, w, if available m md then Return tt else Raise ImportError))
        (fun w => (m, w))
  | Open _ =>
      outside m w
        (fun w =>
           let f := length (files w) in
           (set_exists true m,
            set_files (files w ++ [FileObj (3 + f) false]) w,
            Return f))
        (fun w => (m, w))
  | Fileno f =>
      outside m w
        (fun w =>
           (m, w,
            match files w !! f with
            | Some fo => if fo_closed fo then Raise ValueError
                         else Return (fo_fd fo)
            | None => Raise ValueError
            end))
        (fun w => (m, w))
  | MsvcrtLocking fd mode _ =>
      outside m w
        (fun w =>
           if fd_is_open w fd then
             match mode with
             | LK_NBLCK =>
                 match try_lock (pid w) fd m with
                 | Some m' => (m', w, Return tt)
                 | None => (m, w, Raise PermissionError)
                 end
             | LK_UNLCK =>
                 if owner_is m (pid w) fd
                 then (set_owner None m, w, Return tt)
                 else (m, w, Raise PermissionError)
             end
           else (m, w, Raise OSError))
        (fun w => (m, w))
  | FcntlFlock f op =>
      outside m w
        (fun w =>
           match files w !! f with
           | Some fo =>
               if fo_closed fo then (m, w, Raise ValueError)
               else match op with
                    | LOCK_EX_NB =>
                        match try_lock (pid w) (fo_fd fo) m with
                        | Some m' => (m', w, Return tt)
                        | None => (m, w, Raise BlockingIOError)
                        end
                    | LOCK_UN =>
                        (unlock_if_owner (pid w) (fo_fd fo) m, w, Return tt)
                    end
           | None => (m, w, Raise ValueError)
           end)
        (fun w => (m, w))
  | Close f =>
      (* closing a file object marks it closed and gives up its
         descriptor, with whatever lock it holds, also when the close
         reports an error; closing a closed file does nothing *)
      outside m w
        (fun w => (exec_close f m w, Return tt))
        (fun w => exec_close f m w)
  | OsRemove _ =>
      outside m w
        (fun w =>
           if lock_file_exists m then (set_exists false m, w, Return tt)
           else (m, w, Raise FileNotFoundError))
        (fun w => (m, w))
  | AtexitRegister cb =>
      outside m w
        (fun w => (m, set_atexit (atexit_funcs w ++ [cb]) w, Return tt))
        (fun w => (m, w))
  | Sleep ms =>
      outside m w (fun w => (m, emit (ESleep ms) w, Return tt))
        (fun w => (m, w))
  | Paste =>
      outside m w (fun w => (m, w, Return (clipboard w))) (fun w => (m, w))
  | Write line interval =>
      (* a write that fails has typed an unknown part of the line; it is
         not recorded as a completed batch *)
      outside m w (fun w => (m, emit (EWrite line interval) w, Return tt))
        (fun w => (m, w))
  | PressHotkey keys =>
      outside m w (fun w => (m, emit (EHotkey keys) w, Return tt))
        (fun w => (m, w))
  | ThreadStart target daemon =>
      outside m w
        (fun w => (m, emit (EThreadStart target daemon) w, Return tt))
        (fun w => (m, w))
  | ImageOpen _ => outside m w (fun w => (m, w, Return tt)) (fun w => (m, w))
  | DrawFallbackIcon =>
      outside m w (fun w => (m, w, Return tt)) (fun w => (m, w))
  | IconCreate _ _ =>
      outside m w
        (fun w => (m, emit EIconCreate (set_icon true w), Return tt))
        (fun w => (m, w))
  | IconRun =>
      outside m w (fun w => (m, emit EIconRun w, Return tt)) (fun w => (m, w))
  | IconStop =>
      outside m w (fun w => (m, emit EIconStop w, Return tt)) (fun w => (m, w))
  end.

(** Running a function body to its end. *)
Fixpoint run {A} (p : prog A) (m : machine) (w : proc)
  : machine * proc * outcome A :=
  match p with
  | Ret a => (m, w, Return a)
  | Throw e => (m, w, Raise e)
  | Do c k => let '(m', w', o) := exec c m w in run (k o) m' w'
  end.

Definition result_of {A} (r : machine * proc * outcome A) : outcome A := snd r.
Definition proc_of {A} (r : machine * proc * outcome A) : proc := snd (fst r).
Definition machine_of {A} (r : machine * proc * outcome A) : machine :=
  fst (fst r).

(** ** The functions of [main.pyw] *)

Definition pass {A} (a : A) : exn -> prog A := fun _ => Ret a.

(** [LOCK_FILE_HANDLE.fileno()] *)
Definition handle_fileno : prog nat :=
  h <- perform GetLockHandle ;;
  match h with
  | Some f => perform (Fileno f)
  | None => Throw AttributeError
  end.

(** [fcntl.flock(LOCK_FILE_HANDLE, op)] *)
Definition handle_flock (op : flock_op) : prog unit :=
  h <- perform GetLockHandle ;;
  match h with
  | Some f => perform (FcntlFlock f op)
  | None => Throw TypeError
  end.

(** [LOCK_FILE_HANDLE.close()] *)
Definition handle_close : prog unit :=
  h <- perform GetLockHandle ;;
  match h with
  | Some f => perform (Close f)
  | None => Throw AttributeError
  end.

(** [ensure_single_instance()].  Every path through the two branches
    returns, so the [return False] that ends the function is never
    reached. *)
Definition ensure_single_instance (p : platform) : prog bool :=
  match p with
  | Win32 =>
      try_ (perform (Import msvcrt) ;;
            try_ (with_open LOCK_FILE (fun lock_file =>
                    perform (SetLockHandle lock_file) ;;
                    try_ (fd <- handle_fileno ;;
                          perform (MsvcrtLocking fd LK_NBLCK 1) ;;
                          perform (AtexitRegister cb_release_lock) ;;
                          Ret true)
                         [(is_OSError, pass false)]))
                 [(is_OSError, pass false)])
           [(is_ImportError, pass false)]
  | Posix =>
      try_ (perform (Import fcntl) ;;
            try_ (with_open LOCK_FILE (fun lock_file =>
                    perform (SetLockHandle lock_file) ;;
                    try_ (handle_flock LOCK_EX_NB ;;
                          perform (AtexitRegister cb_release_lock) ;;
                          Ret true)
                         [(is_OSError, pass false)]))
                 [(is_OSError, pass false)])
           [(is_ImportError, pass false)]
  end.

(** [release_lock()] *)
Definition release_lock (p : platform) : prog unit :=
  h <- perform GetLockHandle ;;
  match h with
  | None => Ret tt
  | Some _ =>
      try_ ((match p with
             | Win32 =>
                 try_ (perform (Import msvcrt) ;;
                       try_ (fd <- handle_fileno ;;
                             perform (MsvcrtLocking fd LK_UNLCK 1))
                            [(is_OSError, pass tt)])
                      [(is_ImportError, pass tt)]
             | Posix =>
                 try_ (perform (Import fcntl) ;;
                       try_ (handle_flock LOCK_UN) [(is_OSError, pass tt)])
                      [(is_ImportError, pass tt)]
             end) ;;
            handle_close ;;
            try_ (perform (OsRemove LOCK_FILE)) [(is_OSError, pass tt)])
           [(is_OSError, pass tt)]
  end.

(** The loop [for i, line in enumerate(lines)] of the typer, [n] being
    [len(lines)]. *)
Fixpoint type_lines (n i : nat) (lines : list string) : prog unit :=
  match lines with
  | [] => Ret tt
  | line :: rest =>
      perform (Write line TYPING_INTERVAL) ;;
      (if Nat.ltb i (n - 1) then perform (PressHotkey ["shift"; "enter"])
       else Ret tt) ;;
      type_lines n (S i) rest
  end.

Definition lift {A} (o : outcome A) : prog A :=
  match o with Return a => Ret a | Raise e => Throw e end.

(** The body of the [try] of [type_clipboard_text]. *)
Definition type_clipboard_body : prog unit :=
  perform (Sleep TYPING_DELAY) ;;
  text <- perform Paste ;;
  if negb (truthy text) then
    perform (Print (Msg "Clipboard is empty"))
  else
    perform (Print (Msg "üê± CopyCat typing clipboard...")) ;;
    lines <- lift (split text LF) ;;
    type_lines (length lines) 0 lines ;;
    perform (Print (Msg "‚úì Clipboard contents typed successfully")).

(** [type_clipboard_text()] *)
Definition type_clipboard_text : prog unit :=
  try_ type_clipboard_body
       [(fun e => is_FailSafeException e || is_KeyboardInterrupt e,
         fun e => perform (Print (MsgExn "Typing interrupted: " e)));
        (is_Exception,
         fun e => perform (Print (MsgExn "Error typing clipboard: " e)))].

(** [sys.exit(code)] *)
Definition sys_exit {A} (code : Z) : prog A := Throw (SystemExit code).

(** [quit_app(icon, _item)]; [icon] is true for an icon object and false
    for [None]. *)
Definition quit_app (icon : bool) : prog unit :=
  perform (Print (Msg "üëã Exiting CopyCat...")) ;;
  (if icon then
     try_ (perform IconStop) [(is_AttributeError_or_RuntimeError, pass tt)]
   else Ret tt) ;;
  sys_exit 0.

(** [run_tray()] *)
Definition run_tray : prog unit :=
  try_ (perform (ImageOpen "copycat_icon.ico"))
       [(is_OSError, fun _ => perform DrawFallbackIcon)] ;;
  perform (IconCreate "CopyCat" cb_quit_app) ;;
  perform (Print (Msg "üê± CopyCat is running in the system tray")) ;;
  try_ (perform IconRun)
       [(is_KeyboardInterrupt,
         fun _ =>
           perform (Print (Msg "üëã Exiting CopyCat due to keyboard interrupt...")) ;;
           icon <- perform GetIcon ;;
           quit_app icon);
        (is_Exception,
         fun e =>
           perform (Print (MsgExn "Error in tray icon: " e)) ;;
           icon <- perform GetIcon ;;
           (if icon then
              try_ (perform IconStop)
                   [(is_AttributeError_or_RuntimeError, pass tt)]
            else Ret tt) ;;
           sys_exit 1)].

(** The [if __name__ == "__main__"] block. *)
Definition main (p : platform) : prog unit :=
  only <- ensure_single_instance p ;;
  if negb only then
    perform (Print (Msg "üê± CopyCat is already running! Exiting this instance.")) ;;
    sys_exit 0
  else
    perform (Print (Msg ("üê± CopyCat is running in the tray. Press " +:+ HOTKEY
                         +:+ " to type clipboard."))) ;;
    perform (ThreadStart cb_start_hotkey_listener true) ;;
    run_tray.

(** ** Initial states *)

Definition no_faults : nat -> option exn := fun _ => None.

(** A process right after the module's top-level assignments:
    [ICON_INSTANCE = None], [LOCK_FILE_HANDLE = None], no file object,
    nothing registered, nothing done. *)
Definition fresh_proc (id : nat) (clip : value) (fs : nat -> option exn)
  : proc :=
  Proc id None false [] [] clip [] fs 0.

(** A machine on which nobody holds the lock. *)
Definition idle_machine (file_there : bool) : machine :=
  Machine None file_there (fun _ => true).

(** ** What a run leaves behind *)

Definition quiet (w : proc) : Prop := forall n, faults w n = None.

Definition is_write (ev : event) : bool :=
  match ev with EWrite _ _ => true | _ => false end.
Definition is_hotkey (ev : event) : bool :=
  match ev with EHotkey _ => true | _ => false end.
Definition is_keystroke (ev : event) : bool := is_write ev || is_hotkey ev.

Definition shift_enter : event := EHotkey ["shift"; "enter"].

(** The lines handed to [pyautogui.write], in the order of the calls. *)
Fixpoint written_lines (tr : list event) : list string :=
  match tr with
  | [] => []
  | EWrite line _ :: rest => line :: written_lines rest
  | _ :: rest => written_lines rest
  end.

(** What process [w] does while it runs [p]: the events [p] adds to the
    trace. *)
Definition events_of {A} (p : prog A) (m : machine) (w : proc) : list event :=
  drop (length (trace w)) (trace (proc_of (run p m w))).

Definition keystrokes_of {A} (p : prog A) (m : machine) (w : proc)
  : list event :=
  List.filter is_keystroke (events_of p m w).

(** The keystroke sequence the specification asks for: one batch per
    line, a shift+enter between two batches, none after the last. *)
Fixpoint segments (lines : list string) : list event :=
  match lines with
  | [] => []
  | line :: rest =>
      match rest with
      | [] => [EWrite line TYPING_INTERVAL]
      | _ :: _ => EWrite line TYPING_INTERVAL :: shift_enter :: segments rest
      end
  end.

(** [sep.join(pieces)] *)
Fixpoint str_join (sep : ascii) (pieces : list string) : string :=
  match pieces with
  | [] => EmptyString
  | piece :: rest =>
      match rest with
      | [] => piece
      | _ :: _ => piece +:+ String sep (str_join sep rest)
      end
  end.

Definition interrupted (e : exn) : bool :=
  is_FailSafeException e || is_KeyboardInterrupt e.

(** The message the typer prints for exception [e]. *)
Definition typer_message (e : exn) : message :=
  if interrupted e then MsgExn "Typing interrupted: " e
  else MsgExn "Error typing clipboard: " e.

Definition set_clipboard (v : value) (w : proc) : proc :=
  Proc (pid w) (LOCK_FILE_HANDLE w) (ICON_INSTANCE w) (files w)
       (atexit_funcs w) v (trace w) (faults w) (tick w).

#[global] Instance exn_eq_dec : EqDecision exn.
Proof. solve_decision. Defined.
#[global] Instance callback_eq_dec : EqDecision callback.
Proof. solve_decision. Defined.
#[global] Instance message_eq_dec : EqDecision message.
Proof. solve_decision. Defined.
#[global] Instance event_eq_dec : EqDecision event.
Proof. solve_decision. Defined.

Definition is_shift_enter (ev : event) : bool := bool_decide (ev = shift_enter).

(** The line-segmentation property for one run of the typer on clipboard
    text [text]: with k the number of line feeds in the text, k
    shift+enter combinations, k+1 write batches, one per line and in the
    order of the lines, and a write batch at the very end. *)
Definition segmented (text : string) (m : machine) (w : proc) : Prop :=
  let typed := keystrokes_of type_clipboard_text m w in
  let k := str_count LF text in
  length (List.filter is_shift_enter typed) = k /\
  length (List.filter is_hotkey typed) = k /\
  length (List.filter is_write typed) = S k /\
  written_lines typed = str_split LF text /\
  typed = segments (str_split LF text) /\
  last typed = (fun line => EWrite line TYPING_INTERVAL)
                 <$> last (str_split LF text).

(** The sleep and the clipboard read of the typer, the first two calls
    it makes, go through. *)
Definition reads_clipboard (w : proc) : Prop :=
  faults w (tick w) = None /\ faults w (S (tick w)) = None.

(** The exceptions the typer is written to survive: the subclasses of
    [Exception] and [KeyboardInterrupt]. *)
Definition survivable (e : exn) : bool := is_Exception e || is_KeyboardInterrupt e.

(** Scenario B of the specification: two lines. *)
Definition two_lines : string := "line1" +:+ String LF "line2".

(** The outside world failing once: call number [k] raises [e]. *)
Definition abort_at (k : nat) (e : exn) : nat -> option exn :=
  fun n => if Nat.eqb n k then Some e else None.

(** ** Vocabulary of the claims on the lock guard *)

(** The Python state in which [ensure_single_instance] is called: the
    module has just set [LOCK_FILE_HANDLE = None] and no file has been
    opened yet. *)
Definition at_startup (w : proc) : Prop :=
  LOCK_FILE_HANDLE w = None /\ files w = [].

Definition no_open_file (w : proc) : Prop :=
  Forall (fun fo => fo_closed fo = true) (files w).

(** The file object the global refers to, if it refers to one. *)
Definition handle_object (w : proc) : option file_obj :=
  match LOCK_FILE_HANDLE w with
  | Some f => files w !! f
  | None => None
  end.

Definition held_by_other (m : machine) (w : proc) : Prop :=
  exists p fd, lock_owner m = Some (p, fd) /\ p <> pid w.

Definition locking_module (p : platform) : pymodule :=
  match p with Win32 => msvcrt | Posix => fcntl end.

(** The calls to the outside that a successful
    [ensure_single_instance] makes: import, open, ([fileno],) lock,
    [atexit.register], close. *)
Definition guard_calls (p : platform) : nat :=
  match p with Win32 => 6 | Posix => 5 end.

(** The failures the guard is written for: the import, the first call,
    fails with [ImportError] if it fails at all, and every later call
    that fails does so with an I/O error. *)
Definition guard_failures (w : proc) : Prop :=
  (forall e, faults w (tick w) = Some e -> e = ImportError) /\
  (forall n e, faults w (S n + tick w) = Some e -> is_OSError e = true).

(** The exit status of the process whose main block ended with [o]:
    [sys.exit(code)] gives [code], any other uncaught exception gives 1. *)
Definition exit_status (o : outcome unit) : Z :=
  match o with
  | Return _ => 0%Z
  | Raise (SystemExit code) => code
  | Raise _ => 1%Z
  end.

Definition is_thread_start (ev : event) : bool :=
  match ev with EThreadStart _ _ => true | _ => false end.
Definition is_icon_event (ev : event) : bool :=
  match ev with EIconCreate | EIconRun | EIconStop => true | _ => false end.

(** ** Several processes on one machine *)

(** A process on its way through a function body. *)
Record task : Type := Task { task_proc : proc; task_prog : prog bool }.

(** One step of a task: the next call of its body, made on the machine
    as it is now.  A task whose body has ended stays as it is; the
    process is still alive. *)
Definition step_task (m : machine) (tk : task) : machine * task :=
  match task_prog tk with
  | Do c k =>
      let '(m', w', o) := exec c m (task_proc tk) in (m', Task w' (k o))
  | Ret _ | Throw _ => (m, tk)
  end.

(** A schedule names, step by step, the task that moves. *)
Fixpoint interleave (sched : list nat) (m : machine) (tasks : list task)
  : machine * list task :=
  match sched with
  | [] => (m, tasks)
  | i :: rest =>
      match tasks !! i with
      | Some tk =>
          let '(m', tk') := step_task m tk in
          interleave rest m' (<[i := tk']> tasks)
      | None => interleave rest m tasks
      end
  end.

(** What a task has observed as the result of its body, once it ended. *)
Definition observed (tk : task) : option (outcome bool) :=
  match task_prog tk with
  | Ret b => Some (Return b)
  | Throw e => Some (Raise e)
  | Do _ _ => None
  end.

(** [n] processes, numbered from 1, each about to call
    [ensure_single_instance]. *)
Definition startup_attempts (p : platform) (n : nat) : list task :=
  (fun i => Task (fresh_proc (S i) PyNone no_faults) (ensure_single_instance p))
    <$> seq 0 n.

(** The first process runs its guard to the end, then the second. *)
Definition one_after_the_other : list nat := repeat 0 8 ++ repeat 1 8.

(** The second process runs its guard while the first is between its
    lock call and the end of its [with] block. *)
Definition second_in_between : list nat :=
  repeat 0 6 ++ repeat 1 8 ++ repeat 0 2.

(** Processes that start in turn, each calling the guard when the one
    before has got its answer (and goes on running). *)
Fixpoint start_in_turn (p : platform) (m : machine) (ws : list proc)
  : list (outcome bool) :=
  match ws with
  | [] => []
  | w :: rest =>
      let '(m', _, o) := run (ensure_single_instance p) m w in
      o :: start_in_turn p m' rest
  end.

(** The state [release_lock] finds when the process exits after a
    successful start-up on an idle machine. *)
Definition after_startup (p : platform) : machine * proc :=
  fst (run (ensure_single_instance p) (idle_machine false)
         (fresh_proc 1 PyNone no_faults)).

(** ** The hotkey listener *)

(** [on_activate()] of [start_hotkey_listener] *)
Definition on_activate : prog unit := type_clipboard_text.

(** A raw key event, as the global key-event subscription delivers it. *)
Inductive key_event (R : Type) : Type :=
| KeyPress (k : R)
| KeyRelease (k : R).
Arguments KeyPress {R} k.
Arguments KeyRelease {R} k.

Section Listener.
(** [K]: canonical key identifiers; [R]: raw keys as the platform
    reports them; [canonical]: [Listener.canonical] of [pynput]. *)
Context {K : Type} {EqK : EqDecision K} {CntK : Countable K}
        {R : Type} (canonical : R -> K).

(** Modelled from the spec: [pynput]'s [keyboard.HotKey] class, which
    [start_hotkey_listener] instantiates and whose [press] and
    [release] methods it registers, is not part of the repository.
    Section 4.3 and section 3 of the specification describe it: a
    fixed target set of keys and the set of chord members that are
    currently pressed; a chord member goes released -> pressed on a
    press and pressed -> released on a release; the chord is complete
    iff all its members are pressed; the callback fires on the
    transition into complete, never while already complete. *)
Record HotKey : Type := MkHotKey { _keys : gset K; _state : gset K }.

Definition HotKey_new (keys : gset K) : HotKey := MkHotKey keys ∅.

Definition is_complete (hk : HotKey) : bool :=
  bool_decide (_state hk = _keys hk).

(** [hotkey.press(key)]: the new state, and whether the callback fired. *)
Definition HotKey_press (hk : HotKey) (key : K) : HotKey * bool :=
  if bool_decide (key ∈ _keys hk) then
    let hk' := MkHotKey (_keys hk) (_state hk ∪ {[key]}) in
    (hk', is_complete hk' && negb (is_complete hk))
  else (hk, false).

(** [hotkey.release(key)] *)
Definition HotKey_release (hk : HotKey) (key : K) : HotKey :=
  MkHotKey (_keys hk) (_state hk ∖ {[key]}).

(** [for_canonical(f)] of [start_hotkey_listener]:
    [lambda k: f(l.canonical(k))]. *)
Definition for_canonical {A} (f : K -> A) : R -> A :=
  fun k => f (canonical k).

(** One event through the handlers registered with the listener,
    [on_press=for_canonical(hotkey.press)] and
    [on_release=for_canonical(hotkey.release)]. *)
Definition deliver (hk : HotKey) (ev : key_event R) : HotKey * bool :=
  match ev with
  | KeyPress k => for_canonical (HotKey_press hk) k
  | KeyRelease k => (for_canonical (HotKey_release hk) k, false)
  end.

(** The listener on a sequence of events: for each event, whether
    [on_activate] was called. *)
Fixpoint listen (hk : HotKey) (evs : list (key_event R)) : list bool :=
  match evs with
  | [] => []
  | ev :: rest => let '(hk', fired) := deliver hk ev in fired :: listen hk' rest
  end.

(** [start_hotkey_listener()] for chord [chord]: a fresh [HotKey], then
    the listener. *)
Definition activations (chord : gset K) (evs : list (key_event R))
  : list bool :=
  listen (HotKey_new chord) evs.

(** The same with the callback run, on the listener's own thread; an
    exception that came out of the callback would end the listener. *)
Fixpoint listener_thread (hk : HotKey) (evs : list (key_event R))
    (m : machine) (w : proc) : machine * proc * outcome unit :=
  match evs with
  | [] => (m, w, Return tt)
  | ev :: rest =>
      let '(hk', fired) := deliver hk ev in
      if fired then
        match run on_activate m w with
        | (m', w', Return _) => listener_thread hk' rest m' w'
        | (m', w', Raise e) => (m', w', Raise e)
        end
      else listener_thread hk' rest m w
  end.

(** *** The keys as they are, independently of the listener *)

(** The set of keys that are down after an event. *)
Definition after_event (down : gset K) (ev : key_event R) : gset K :=
  match ev with
  | KeyPress k => down ∪ {[canonical k]}
  | KeyRelease k => down ∖ {[canonical k]}
  end.

(** The sets of keys that are down, before the first event and after
    each event. *)
Fixpoint timeline (down : gset K) (evs : list (key_event R))
  : list (gset K) :=
  down :: match evs with
          | [] => []
          | ev :: rest => timeline (after_event down ev) rest
          end.

(** All members of the chord are down. *)
Definition all_down (chord down : gset K) : bool :=
  bool_decide (chord ⊆ down).

(** For each moment of a timeline, whether a maximal interval of
    [true] begins there; [before] is the moment before the first. *)
Fixpoint interval_starts (before : bool) (line : list bool) : list bool :=
  match line with
  | [] => []
  | now :: later => (now && negb before) :: interval_starts now later
  end.

(** The number of maximal intervals during which the whole chord is
    down. *)
Definition complete_intervals (chord : gset K) (evs : list (key_event R))
  : nat :=
  length (List.filter id
            (interval_starts false (all_down chord <$> timeline ∅ evs))).

Definition fired_count (fs : list bool) : nat := length (List.filter id fs).

Definition is_press (ev : key_event R) : bool :=
  match ev with KeyPress _ => true | KeyRelease _ => false end.
End Listener.
Arguments HotKey K {_ _}.

(** Modelled from the spec: [HotKey.parse] of [pynput], which is not part
    of the repository: the chord specification, split at the plus
    signs, as a set of key identifiers. *)
Definition parse (spec : string) : gset string :=
  list_to_set (str_split "+"%char spec).

(** Modelled from the spec: [Listener.canonical] of [pynput], which is
    not part of the repository, on key names: the left and right
    variants of a modifier are the modifier, an upper-case letter is the
    lower-case one (here for the keys of [HOTKEY] only). *)
Definition canonical_name (raw : string) : string :=
  if String.eqb raw "<ctrl_l>" || String.eqb raw "<ctrl_r>" then "<ctrl>"
  else if String.eqb raw "<alt_l>" || String.eqb raw "<alt_r>" then "<alt>"
  else if String.eqb raw "T" then "t"
  else raw.

Section ListenerStates.
Context {K : Type} {EqK : EqDecision K} {CntK : Countable K}
        {R : Type} (canonical : R -> K).

(** The [HotKey] object after a sequence of events. *)
Definition hotkey_after (hk : HotKey K) (evs : list (key_event R))
  : HotKey K :=
  fold_left (fun hk ev => fst (deliver canonical hk ev)) evs hk.

(** The keys that are down after a sequence of events. *)
Definition down_after (down : gset K) (evs : list (key_event R)) : gset K :=
  fold_left (after_event canonical) evs down.

(** The listener's state is the part of the keys that are down that
    belongs to the chord. *)
Definition tracks (chord : gset K) (hk : HotKey K) (down : gset K) : Prop :=
  _keys hk = chord /\ _state hk = down ∩ chord.
End ListenerStates.

(** The chord of the script. *)
Definition HOTKEY_chord : gset string := parse HOTKEY.

(** [start_hotkey_listener()], given the events the subscription
    delivers while the process lives. *)
Definition start_hotkey_listener {R : Type} (canonical : R -> string)
    (evs : list (key_event R)) (m : machine) (w : proc)
  : machine * proc * outcome unit :=
  listener_thread canonical (HotKey_new HOTKEY_chord) evs m w.

(** A sample of raw events: the chord pressed in an unusual order with a
    stray key and a repeated press, the letter let go and pressed again,
    then two keys let go. *)
Definition sample_events : list (key_event string) :=
  [KeyPress "<alt_r>"; KeyPress "s"; KeyPress "T"; KeyPress "<ctrl_l>";
   KeyPress "<ctrl_l>"; KeyPress "t"; KeyRelease "t"; KeyPress "t";
   KeyRelease "<ctrl_r>"; KeyRelease "T"].

(** ** Further vocabulary: the typer *)

(** The text that a sequence of keystroke events puts into the focused
    application: the characters of each write batch, and a line break
    for each shift+enter. *)
Fixpoint typed_text (tr : list event) : string :=
  match tr with
  | [] => EmptyString
  | EWrite line _ :: rest => line +:+ typed_text rest
  | ev :: rest =>
      if is_shift_enter ev then String LF (typed_text rest)
      else typed_text rest
  end.

(** The keystrokes of a complete run of the typer on clipboard value
    [v]: none for [None] and for the empty string. *)
Definition full_keystrokes (v : value) : list event :=
  if truthy v then
    match v with
    | PyStr s => segments (str_split LF s)
    | PyNone => []
    end
  else [].

(** Everything a run of the typer does when no call fails. *)
Definition typer_events (v : value) : list event :=
  if truthy v then
    [ESleep TYPING_DELAY; EPrint (Msg "üê± CopyCat typing clipboard...")]
    ++ full_keystrokes v
    ++ [EPrint (Msg "‚úì Clipboard contents typed successfully")]
  else [ESleep TYPING_DELAY; EPrint (Msg "Clipboard is empty")].

(** The part of the host the typer has no business with: the machine,
    the two globals, the file objects, the [atexit] list and the
    clipboard. *)
Definition host_state (m : machine) (w : proc)
  : machine * option nat * bool * list file_obj * list callback * value :=
  (m, LOCK_FILE_HANDLE w, ICON_INSTANCE w, files w, atexit_funcs w,
   clipboard w).

(** Every call a program can come to make satisfies [P]. *)
Fixpoint all_calls {A} (P : forall X, call X -> Prop) (p : prog A) : Prop :=
  match p with
  | Ret _ | Throw _ => True
  | Do c k => P _ c /\ forall o, all_calls P (k o)
  end.

(** The calls of the typer: sleeping, reading the clipboard, emitting
    keystrokes, printing. *)
Definition typer_call (X : Type) (c : call X) : Prop :=
  match c with
  | Sleep _ | Paste | Write _ _ | PressHotkey _ | Print _ => True
  | _ => False
  end.

(** ** Further vocabulary: the tray *)

(** The outside world failing twice. *)
Definition two_aborts (k1 : nat) (e1 : exn) (k2 : nat) (e2 : exn)
  : nat -> option exn :=
  fun n => if Nat.eqb n k1 then Some e1 else abort_at k2 e2 n.

(** The number of the call [ICON_INSTANCE.run()] in a run of [run_tray]
    by process [w]: after the opening of the icon file, the drawing of
    the fallback icon if the opening failed, the creation of the icon and
    the print. *)
Definition tray_run_call (w : proc) : nat :=
  match faults w (tick w) with
  | Some _ => 4 + tick w
  | None => 3 + tick w
  end.

(** The number of the call [stop()] that follows exception [e] of the
    icon's loop: directly after it, or, for a [KeyboardInterrupt], after
    the two prints on the way through [quit_app]. *)
Definition tray_stop_call (w : proc) (e : exn) : nat :=
  if is_KeyboardInterrupt e then 3 + tray_run_call w
  else 1 + tray_run_call w.

(** The calls [type_clipboard_text] makes up to its last keystroke on a
    text with k line feeds: the sleep, the clipboard read, the first
    print, then k+1 writes with k shift+enter between them.  The print
    after the typing is the next call. *)
Definition typing_calls (text : string) : nat :=
  3 + (2 * str_count LF text + 1).

(** None of these calls fails, counted from the call the run starts at. *)
Definition typing_goes_through (text : string) (w : proc) : Prop :=
  forall i, i < typing_calls text -> faults w (tick w + i) = None.

(** ** General facts on running programs *)

Lemma run_bind {A B} (p : prog A) (f : A -> prog B) m w :
  run (bind p f) m w =
  match run p m w with
  | (m', w', Return a) => run (f a) m' w'
  | (m', w', Raise e) => (m', w', Raise e)
  end.
Proof.
  revert m w; induction p as [a|e|X c k IH]; intros m w; simpl; try reflexivity.
  destruct (exec c m w) as [[m' w'] o]. apply IH.
Qed.

Lemma run_try {A} (body : prog A) clauses m w :
  run (try_ body clauses) m w =
  match run body m w with
  | (m', w', Return a) => (m', w', Return a)
  | (m', w', Raise e) => run (dispatch clauses e) m' w'
  end.
Proof.
  revert m w; induction body as [a|e|X c k IH]; intros m w; simpl;
    try reflexivity.
  destruct (exec c m w) as [[m' w'] o]. apply IH.
Qed.

Lemma run_closing {A} (f : nat) (body : prog A) m w :
  run (closing f body) m w =
  match run body m w with
  | (m', w', o) =>
      match exec (Close f) m' w' with
      | (m'', w'', Return _) => (m'', w'', o)
      | (m'', w'', Raise e) => (m'', w'', Raise e)
      end
  end.
Proof.
  revert m w; induction body as [a|e|X c k IH]; intros m w; simpl.
  - destruct (outside _ _ _ _) as [[m' w'] [u|e]]; reflexivity.
  - destruct (outside _ _ _ _) as [[m' w'] [u|e']]; reflexivity.
  - destruct (exec c m w) as [[m' w'] o]. apply IH.
Qed.

Lemma run_perform {X} (c : call X) m w :
  run (perform c) m w = exec c m w.
Proof.
  simpl. destruct (exec c m w) as [[m' w'] [x|e]]; reflexivity.
Qed.

Lemma outside_ok {X} m w (normal : proc -> machine * proc * outcome X) failed :
  faults w (tick w) = None -> outside m w normal failed = normal (ticked w).
Proof. unfold outside. intros ->. reflexivity. Qed.

Lemma outside_raise {X} m w (normal : proc -> machine * proc * outcome X)
    failed e :
  faults w (tick w) = Some e ->
  outside m w normal failed = (failed (ticked w), Raise e).
Proof. unfold outside. intros ->. reflexivity. Qed.

(** No call changes the failures that are still to come. *)
Lemma exec_faults {X} (c : call X) m w :
  faults (proc_of (exec c m w)) = faults w.
Proof.
  destruct c; cbn; unfold outside, exec_close, close_file;
    repeat (case_match; cbn); reflexivity.
Qed.

Lemma run_faults {A} (p : prog A) : forall m w,
  faults (proc_of (run p m w)) = faults w.
Proof.
  induction p as [a|e|X c k IH]; intros m w; try reflexivity.
  cbn [run]. pose proof (exec_faults c m w) as Hc.
  destruct (exec c m w) as [[m' w'] o]. rewrite IH. exact Hc.
Qed.

(** ** Splitting the clipboard text *)

Lemma str_split_not_nil sep s : str_split sep s <> [].
Proof.
  destruct s as [|c rest]; simpl; [discriminate|].
  destruct (Ascii.eqb c sep); [discriminate|].
  destruct (str_split sep rest); discriminate.
Qed.

Lemma length_str_split sep s :
  length (str_split sep s) = S (str_count sep s).
Proof.
  induction s as [|c rest IH]; simpl; [reflexivity|].
  destruct (Ascii.eqb c sep); simpl; [now rewrite IH|].
  destruct (str_split sep rest) as [|piece pieces] eqn:E.
  - now apply str_split_not_nil in E.
  - simpl in *. exact IH.
Qed.

Lemma str_join_split sep s : str_join sep (str_split sep s) = s.
Proof.
  induction s as [|c rest IH]; simpl; [reflexivity|].
  destruct (Ascii.eqb c sep) eqn:Ec.
  - apply Ascii.eqb_eq in Ec. subst c. simpl.
    destruct (str_split sep rest) as [|piece pieces] eqn:E.
    + now apply str_split_not_nil in E.
    + now rewrite IH.
  - destruct (str_split sep rest) as [|piece pieces] eqn:E.
    + now apply str_split_not_nil in E.
    + simpl in *. destruct pieces; simpl in *; now rewrite <- IH.
Qed.

(** No piece of a split contains the separator. *)
Lemma str_split_no_sep sep s :
  Forall (fun piece => str_count sep piece = 0) (str_split sep s).
Proof.
  induction s as [|c rest IH]; simpl.
  - repeat constructor.
  - destruct (Ascii.eqb c sep) eqn:Ec.
    + constructor; [reflexivity|exact IH].
    + destruct (str_split sep rest) as [|piece pieces].
      * repeat constructor. simpl. now rewrite Ec.
      * inversion IH as [|? ? Hp Hps]; subst.
        constructor; [simpl; now rewrite Ec|exact Hps].
Qed.

(** ** Single calls *)

Lemma exec_sleep_ok ms m w :
  faults w (tick w) = None ->
  exec (Sleep ms) m w = (m, emit (ESleep ms) (ticked w), Return tt).
Proof. intros H. simpl. now rewrite outside_ok. Qed.

Lemma exec_paste_ok m w :
  faults w (tick w) = None ->
  exec Paste m w = (m, ticked w, Return (clipboard w)).
Proof. intros H. simpl. now rewrite outside_ok. Qed.

Lemma exec_write_ok line i m w :
  faults w (tick w) = None ->
  exec (Write line i) m w = (m, emit (EWrite line i) (ticked w), Return tt).
Proof. intros H. simpl. now rewrite outside_ok. Qed.

Lemma exec_hotkey_ok keys m w :
  faults w (tick w) = None ->
  exec (PressHotkey keys) m w = (m, emit (EHotkey keys) (ticked w), Return tt).
Proof. intros H. simpl. now rewrite outside_ok. Qed.

Lemma exec_print_ascii msg m w :
  message_is_ascii msg = true ->
  exec (Print msg) m w = (m, emit (EPrint msg) w, Return tt).
Proof. intros H. cbn [exec]. now rewrite H. Qed.

Lemma exec_print_ok msg m w :
  message_is_ascii msg = false -> faults w (tick w) = None ->
  exec (Print msg) m w = (m, emit (EPrint msg) (ticked w), Return tt).
Proof. intros H F. cbn [exec]. rewrite H. now apply outside_ok. Qed.

Lemma exec_print_raise msg m w e :
  message_is_ascii msg = false -> faults w (tick w) = Some e ->
  exec (Print msg) m w = (m, ticked w, Raise e).
Proof. intros H F. cbn [exec]. rewrite H. now apply outside_raise. Qed.

(** ** The typing loop *)

Lemma run_type_lines_quiet lines : forall n i m w,
  quiet w -> n = i + length lines ->
  exists w', run (type_lines n i lines) m w = (m, w', Return tt) /\
             trace w' = trace w ++ segments lines /\ quiet w'.
Proof.
  induction lines as [|line rest IH]; intros n i m w Hq Hn.
  - exists w. simpl. rewrite app_nil_r. auto.
  - cbn [type_lines]. rewrite run_bind, run_perform, exec_write_ok by apply Hq.
    rewrite run_bind.
    destruct rest as [|line' rest'].
    + replace (Nat.ltb i (n - 1)) with false
        by (symmetry; apply Nat.ltb_ge; simpl in Hn; lia).
      simpl. eexists; split; [reflexivity|]. split; [reflexivity|].
      intros k; apply Hq.
    + replace (Nat.ltb i (n - 1)) with true
        by (symmetry; apply Nat.ltb_lt; simpl in Hn; lia).
      rewrite run_perform, exec_hotkey_ok by apply Hq.
      destruct (IH n (S i) m
                  (emit (EHotkey ["shift"; "enter"])
                     (ticked (emit (EWrite line TYPING_INTERVAL) (ticked w)))))
        as (w' & Hrun & Htr & Hq').
      * intros k; apply Hq.
      * simpl in *; lia.
      * exists w'. split; [exact Hrun|]. split; [|exact Hq'].
        rewrite Htr. cbn [segments]. simpl trace.
        rewrite <- !app_assoc. reflexivity.
Qed.

Lemma run_typer_quiet m w c s :
  clipboard w = PyStr (String c s) -> quiet w ->
  exists w', run type_clipboard_text m w = (m, w', Return tt) /\
    trace w' = trace w
                 ++ [ESleep TYPING_DELAY;
                     EPrint (Msg "üê± CopyCat typing clipboard...")]
                 ++ segments (str_split LF (String c s))
                 ++ [EPrint (Msg "‚úì Clipboard contents typed successfully")].
Proof.
  intros Hc Hq. unfold type_clipboard_text, type_clipboard_body.
  rewrite run_try, run_bind, run_perform, exec_sleep_ok by apply Hq.
  rewrite run_bind, run_perform, exec_paste_ok by apply Hq.
  cbn [clipboard emit ticked]. rewrite Hc. cbn [truthy negb].
  rewrite run_bind, run_perform, exec_print_ok
    by first [reflexivity | apply Hq].
  rewrite run_bind. cbn [split lift run].
  rewrite run_bind.
  match goal with
  | |- context [run (type_lines ?n 0 ?ls) ?m0 ?w0] =>
      destruct (run_type_lines_quiet ls n 0 m0 w0) as (w' & Hrun & Htr & Hq')
  end.
  - intros k; apply Hq.
  - reflexivity.
  - rewrite Hrun, run_perform, exec_print_ok
      by first [reflexivity | apply Hq'].
    eexists; split; [reflexivity|].
    simpl trace. rewrite Htr. simpl trace.
    rewrite <- !app_assoc. reflexivity.
Qed.

(** ** The keystroke sequence asked for *)

Lemma segments_all_keystrokes lines :
  List.filter is_keystroke (segments lines) = segments lines.
Proof.
  induction lines as [|line rest IH]; [reflexivity|].
  destruct rest as [|line' rest']; [reflexivity|].
  change (segments (line :: line' :: rest'))
    with (EWrite line TYPING_INTERVAL :: shift_enter :: segments (line' :: rest')).
  cbn [List.filter is_keystroke is_write is_hotkey shift_enter orb].
  now rewrite IH.
Qed.

Lemma segments_written lines : written_lines (segments lines) = lines.
Proof.
  induction lines as [|line rest IH]; [reflexivity|].
  destruct rest as [|line' rest']; [reflexivity|].
  change (segments (line :: line' :: rest'))
    with (EWrite line TYPING_INTERVAL :: shift_enter :: segments (line' :: rest')).
  cbn [written_lines shift_enter]. now rewrite IH.
Qed.

Lemma segments_writes lines :
  length (List.filter is_write (segments lines)) = length lines.
Proof.
  induction lines as [|line rest IH]; [reflexivity|].
  destruct rest as [|line' rest']; [reflexivity|].
  change (segments (line :: line' :: rest'))
    with (EWrite line TYPING_INTERVAL :: shift_enter :: segments (line' :: rest')).
  cbn [List.filter is_write shift_enter length]. now rewrite IH.
Qed.

Lemma segments_hotkeys lines :
  length (List.filter is_hotkey (segments lines)) = length lines - 1.
Proof.
  induction lines as [|line rest IH]; [reflexivity|].
  destruct rest as [|line' rest']; [reflexivity|].
  change (segments (line :: line' :: rest'))
    with (EWrite line TYPING_INTERVAL :: shift_enter :: segments (line' :: rest')).
  cbn [List.filter is_hotkey shift_enter length]. rewrite IH. simpl. lia.
Qed.

Lemma segments_shift_enters lines :
  length (List.filter is_shift_enter (segments lines)) = length lines - 1.
Proof.
  induction lines as [|line rest IH]; [reflexivity|].
  destruct rest as [|line' rest']; [reflexivity|].
  change (segments (line :: line' :: rest'))
    with (EWrite line TYPING_INTERVAL :: shift_enter :: segments (line' :: rest')).
  cbn [List.filter].
  replace (is_shift_enter (EWrite line TYPING_INTERVAL)) with false by reflexivity.
  replace (is_shift_enter shift_enter) with true by reflexivity.
  cbn [length]. rewrite IH. simpl. lia.
Qed.

Lemma segments_last lines :
  last (segments lines)
  = (fun line => EWrite line TYPING_INTERVAL) <$> last lines.
Proof.
  induction lines as [|line rest IH]; [reflexivity|].
  destruct rest as [|line' rest']; [reflexivity|].
  change (segments (line :: line' :: rest'))
    with (EWrite line TYPING_INTERVAL :: shift_enter :: segments (line' :: rest')).
  change (last (line :: line' :: rest')) with (last (line' :: rest')).
  rewrite <- IH. destruct (segments (line' :: rest')) eqn:E; [|reflexivity].
  destruct rest'; discriminate.
Qed.

(** ** Claims on the typer *)

(** Up to its last keystroke the typer needs only the calls before it. *)
Lemma run_type_lines_through lines : forall n i m w,
  n = i + length lines ->
  (forall j, j < 2 * length lines - 1 -> faults w (tick w + j) = None) ->
  exists w', run (type_lines n i lines) m w = (m, w', Return tt) /\
             trace w' = trace w ++ segments lines.
Proof.
  induction lines as [|line rest IH]; intros n i m w Hn Hq.
  - exists w. simpl. rewrite app_nil_r. auto.
  - cbn [type_lines].
    rewrite run_bind, run_perform, exec_write_ok
      by (rewrite <- (Nat.add_0_r (tick w)); apply Hq; simpl; lia).
    rewrite run_bind.
    destruct rest as [|line' rest'].
    + replace (Nat.ltb i (n - 1)) with false
        by (symmetry; apply Nat.ltb_ge; simpl in Hn; lia).
      simpl. eexists; split; reflexivity.
    + replace (Nat.ltb i (n - 1)) with true
        by (symmetry; apply Nat.ltb_lt; simpl in Hn; lia).
      rewrite run_perform, exec_hotkey_ok
        by (cbn [faults tick emit ticked];
            replace (S (tick w)) with (tick w + 1) by lia;
            apply Hq; simpl; lia).
      destruct (IH n (S i) m
                  (emit (EHotkey ["shift"; "enter"])
                     (ticked (emit (EWrite line TYPING_INTERVAL) (ticked w)))))
        as (w' & Hrun & Htr).
      * simpl in *; lia.
      * intros j Hj. cbn [faults tick emit ticked].
        replace (S (S (tick w)) + j) with (tick w + (2 + j)) by lia.
        apply Hq. simpl in *. lia.
      * exists w'. split; [exact Hrun|].
        rewrite Htr. cbn [segments]. simpl trace.
        rewrite <- !app_assoc. reflexivity.
Qed.

Lemma typer_body_through m w c s :
  clipboard w = PyStr (String c s) ->
  typing_goes_through (String c s) w ->
  exists evs,
    trace (proc_of (run type_clipboard_body m w)) = trace w ++ evs /\
    List.filter is_keystroke evs = segments (str_split LF (String c s)).
Proof.
  intros Hc Hq. unfold type_clipboard_body.
  assert (H0 : faults w (tick w) = None).
  { rewrite <- (Nat.add_0_r (tick w)). apply Hq. unfold typing_calls. lia. }
  assert (H1 : faults w (S (tick w)) = None).
  { replace (S (tick w)) with (tick w + 1) by lia.
    apply Hq. unfold typing_calls. lia. }
  assert (H2 : faults w (S (S (tick w))) = None).
  { replace (S (S (tick w))) with (tick w + 2) by lia.
    apply Hq. unfold typing_calls. lia. }
  rewrite run_bind, run_perform, exec_sleep_ok by exact H0.
  rewrite run_bind, run_perform, exec_paste_ok by exact H1.
  cbn [clipboard emit ticked]. rewrite Hc. cbn [truthy negb].
  rewrite run_bind, run_perform, exec_print_ok
    by first [reflexivity | exact H2].
  rewrite run_bind. cbn [Py.split lift run].
  rewrite run_bind.
  match goal with
  | |- context [run (type_lines ?n 0 ?ls) ?m0 ?w0] =>
      destruct (run_type_lines_through ls n 0 m0 w0) as (w' & Hrun & Htr)
  end.
  - reflexivity.
  - intros j Hj. cbn [faults tick emit ticked].
    replace (S (S (S (tick w))) + j) with (tick w + (3 + j)) by lia.
    apply Hq. unfold typing_calls.
    rewrite length_str_split in Hj. lia.
  - rewrite Hrun, run_perform. simpl trace in Htr.
    destruct (faults w' (tick w')) as [e|] eqn:F3.
    + rewrite (exec_print_raise _ _ _ e) by first [reflexivity | exact F3].
      eexists. cbn [proc_of fst snd trace ticked]. rewrite Htr.
      rewrite <- !app_assoc. split; [reflexivity|].
      rewrite !List.filter_app.
      cbn [List.filter is_keystroke is_write is_hotkey orb app].
      apply segments_all_keystrokes.
    + rewrite exec_print_ok by first [reflexivity | exact F3].
      eexists. cbn [proc_of fst snd trace emit ticked]. rewrite Htr.
      rewrite <- !app_assoc. split; [reflexivity|].
      rewrite !List.filter_app.
      cbn [List.filter is_keystroke is_write is_hotkey orb app].
      rewrite app_nil_r. apply segments_all_keystrokes.
Qed.

Lemma typer_through_keystrokes m w c s :
  clipboard w = PyStr (String c s) ->
  typing_goes_through (String c s) w ->
  keystrokes_of type_clipboard_text m w
  = segments (str_split LF (String c s)).
Proof.
  intros Hc Hq.
  destruct (typer_body_through m w c s Hc Hq) as (evs & Htr & Hks).
  unfold keystrokes_of, events_of, type_clipboard_text. rewrite run_try.
  destruct (run type_clipboard_body m w) as [[m' w'] [[]|e]];
    cbn [proc_of fst snd] in Htr.
  - cbn [proc_of fst snd]. rewrite Htr, drop_app_length. exact Hks.
  - cbn [dispatch].
    destruct (_ || _); [|destruct (is_Exception e)].
    + rewrite run_perform, exec_print_ascii by reflexivity.
      cbn [proc_of fst snd trace emit].
      rewrite Htr, <- app_assoc, drop_app_length, List.filter_app.
      cbn. rewrite app_nil_r. exact Hks.
    + rewrite run_perform, exec_print_ascii by reflexivity.
      cbn [proc_of fst snd trace emit].
      rewrite Htr, <- app_assoc, drop_app_length, List.filter_app.
      cbn. rewrite app_nil_r. exact Hks.
    + cbn [proc_of fst snd run]. rewrite Htr, drop_app_length. exact Hks.
Qed.

(** C2 (amended).  For every non-empty clipboard text with exactly k
    line feeds, in a run in which the sleep, the clipboard read, the
    first print and every keystroke emission succeed,
    [type_clipboard_text] emits exactly k shift+enter combinations and
    k+1 write batches, one per line and in the order of the lines, and
    ends on a write batch. *)
Theorem typer_line_segmentation text m w :
  text <> EmptyString -> clipboard w = PyStr text ->
  typing_goes_through text w ->
  segmented text m w.
Proof.
  intros Hne Hc Hq. destruct text as [|c s]; [congruence|].
  unfold segmented. rewrite (typer_through_keystrokes m w c s Hc Hq).
  cbv zeta.
  rewrite segments_shift_enters, segments_hotkeys, segments_writes,
    segments_written, segments_last, length_str_split.
  cbn [Nat.sub]. rewrite Nat.sub_0_r. repeat split.
Qed.

Lemma typer_line_segmentation_witness :
  two_lines <> EmptyString /\
  clipboard (fresh_proc 1 (PyStr two_lines) (abort_at 6 UnicodeEncodeError))
  = PyStr two_lines /\
  typing_goes_through two_lines
    (fresh_proc 1 (PyStr two_lines) (abort_at 6 UnicodeEncodeError)) /\
  segmented two_lines (idle_machine false)
    (fresh_proc 1 (PyStr two_lines) (abort_at 6 UnicodeEncodeError)).
Proof.
  assert (Hq : typing_goes_through two_lines
                 (fresh_proc 1 (PyStr two_lines)
                    (abort_at 6 UnicodeEncodeError))).
  { intros i Hi. change (typing_calls two_lines) with 6 in Hi.
    do 6 (destruct i as [|i]; [reflexivity|]). lia. }
  split; [discriminate|]. split; [reflexivity|]. split; [exact Hq|].
  apply typer_line_segmentation; [discriminate | reflexivity | exact Hq].
Defined.

(** C2 as stated fails on the empty clipboard text: it has k = 0 line
    feeds, and the typer emits no write batch at all instead of one.  It
    also fails when a call up to the last keystroke fails, on a text of
    two lines: nothing is typed when the sleep, the clipboard read, the
    first print or the first write raises, and the typing stops after
    the first batch when the shift+enter raises. *)
Lemma typer_line_segmentation_fails :
  let m := idle_machine false in
  let typed fs := keystrokes_of type_clipboard_text m
                    (fresh_proc 1 (PyStr two_lines) fs) in
  (clipboard (fresh_proc 1 (PyStr EmptyString) no_faults) = PyStr EmptyString /\
   quiet (fresh_proc 1 (PyStr EmptyString) no_faults) /\
   str_count LF EmptyString = 0 /\
   keystrokes_of type_clipboard_text m
     (fresh_proc 1 (PyStr EmptyString) no_faults) = [] /\
   ~ segmented EmptyString m (fresh_proc 1 (PyStr EmptyString) no_faults)) /\
  (two_lines <> EmptyString /\ str_count LF two_lines = 1) /\
  (typed (abort_at 0 OSError) = [] /\
   ~ segmented two_lines m
       (fresh_proc 1 (PyStr two_lines) (abort_at 0 OSError))) /\
  (typed (abort_at 1 PyperclipException) = [] /\
   ~ segmented two_lines m
       (fresh_proc 1 (PyStr two_lines) (abort_at 1 PyperclipException))) /\
  (typed (abort_at 2 UnicodeEncodeError) = [] /\
   ~ segmented two_lines m
       (fresh_proc 1 (PyStr two_lines) (abort_at 2 UnicodeEncodeError))) /\
  (typed (abort_at 3 OSError) = [] /\
   ~ segmented two_lines m
       (fresh_proc 1 (PyStr two_lines) (abort_at 3 OSError))) /\
  (typed (abort_at 4 FailSafeException) = [EWrite "line1" TYPING_INTERVAL] /\
   ~ segmented two_lines m
       (fresh_proc 1 (PyStr two_lines) (abort_at 4 FailSafeException))).
Proof.
  cbv zeta. split; [|split; [|split; [|split; [|split; [|split]]]]].
  - split; [reflexivity|]. split; [intros n; reflexivity|].
    split; [reflexivity|]. split; [reflexivity|].
    intros (_ & _ & Hwrites & _). vm_compute in Hwrites. discriminate Hwrites.
  - split; [discriminate | reflexivity].
  - split; [vm_compute; reflexivity|].
    intros (Hse & _). vm_compute in Hse. discriminate Hse.
  - split; [vm_compute; reflexivity|].
    intros (Hse & _). vm_compute in Hse. discriminate Hse.
  - split; [vm_compute; reflexivity|].
    intros (Hse & _). vm_compute in Hse. discriminate Hse.
  - split; [vm_compute; reflexivity|].
    intros (Hse & _). vm_compute in Hse. discriminate Hse.
  - split; [vm_compute; reflexivity|].
    intros (Hse & _). vm_compute in Hse. discriminate Hse.
Qed.

(** Every exception that comes out of the typing loop was injected by
    the outside world. *)
Lemma type_lines_raises lines : forall n i m w m' w' e,
  run (type_lines n i lines) m w = (m', w', Raise e) ->
  exists k, faults w k = Some e.
Proof.
  induction lines as [|line rest IH]; intros n i m w m' w' e Hrun.
  - discriminate Hrun.
  - cbn [type_lines] in Hrun. rewrite run_bind, run_perform in Hrun.
    cbn [exec] in Hrun. unfold outside in Hrun.
    destruct (faults w (tick w)) as [e0|] eqn:F0.
    { inversion Hrun; subst. eauto. }
    rewrite run_bind in Hrun.
    destruct (Nat.ltb i (n - 1)).
    + rewrite run_perform in Hrun. cbn [exec] in Hrun. unfold outside in Hrun.
      cbn [faults tick emit ticked] in Hrun.
      destruct (faults w (S (tick w))) as [e1|] eqn:F1.
      { inversion Hrun; subst. eauto. }
      apply IH in Hrun. exact Hrun.
    + cbn [run] in Hrun. apply IH in Hrun. exact Hrun.
Qed.

Lemma typer_body_raises m w m' w' e :
  run type_clipboard_body m w = (m', w', Raise e) ->
  exists k, faults w k = Some e.
Proof.
  unfold type_clipboard_body. intros Hrun.
  rewrite run_bind, run_perform in Hrun. cbn [exec] in Hrun.
  unfold outside in Hrun.
  destruct (faults w (tick w)) as [e0|] eqn:F0.
  { inversion Hrun; subst. eauto. }
  rewrite run_bind, run_perform in Hrun. cbn [exec] in Hrun.
  unfold outside in Hrun. cbn [faults tick emit ticked clipboard] in Hrun.
  destruct (faults w (S (tick w))) as [e1|] eqn:F1.
  { inversion Hrun; subst. eauto. }
  destruct (clipboard w) as [|[|c s]]; cbn [truthy negb] in Hrun;
    try (rewrite run_perform, exec_print_ascii in Hrun by reflexivity;
         discriminate Hrun).
  rewrite run_bind, run_perform in Hrun.
  destruct (faults w (S (S (tick w)))) as [e2|] eqn:F2.
  { rewrite (exec_print_raise _ _ _ e2) in Hrun by first [reflexivity | exact F2].
    inversion Hrun; subst. eauto. }
  rewrite exec_print_ok in Hrun by first [reflexivity | exact F2].
  rewrite run_bind in Hrun. cbn [split lift run] in Hrun.
  rewrite run_bind in Hrun.
  match type of Hrun with
  | context [run (type_lines ?n 0 ?ls) ?m0 ?w0] =>
      pose proof (run_faults (type_lines n 0 ls) m0 w0) as Hf;
      destruct (run (type_lines n 0 ls) m0 w0) as [[m1 w1] [[]|e1]] eqn:Hloop
  end; cbn [proc_of fst snd faults emit ticked] in Hf.
  - rewrite run_perform in Hrun.
    destruct (faults w1 (tick w1)) as [e3|] eqn:F3.
    + rewrite (exec_print_raise _ _ _ e3) in Hrun by first [reflexivity | exact F3].
      inversion Hrun; subst. rewrite Hf in F3. eauto.
    + rewrite exec_print_ok in Hrun by first [reflexivity | exact F3].
      discriminate Hrun.
  - inversion Hrun; subst. apply type_lines_raises in Hloop. exact Hloop.
Qed.

Lemma run_typer_caught m w m' w' e :
  survivable e = true ->
  run type_clipboard_body m w = (m', w', Raise e) ->
  run type_clipboard_text m w
  = (m', emit (EPrint (typer_message e)) w', Return tt).
Proof.
  intros Hs Hbody. unfold type_clipboard_text. rewrite run_try, Hbody.
  cbn [dispatch]. unfold typer_message, interrupted, survivable in *.
  destruct (is_FailSafeException e || is_KeyboardInterrupt e) eqn:Hi.
  - rewrite run_perform. reflexivity.
  - destruct (is_Exception e) eqn:He.
    + rewrite run_perform. reflexivity.
    + destruct e; discriminate.
Qed.

(** The typer returns whenever the failures are of the classes it is
    written for, and leaves the failures to come as they were. *)
Lemma typer_failures_survivable m w :
  (forall n e, faults w n = Some e -> survivable e = true) ->
  result_of (run type_clipboard_text m w) = Return tt /\
  faults (proc_of (run type_clipboard_text m w)) = faults w.
Proof.
  intros Hf. split.
  - destruct (run type_clipboard_body m w) as [[m' w'] [[]|e]] eqn:Hbody.
    + unfold type_clipboard_text. rewrite run_try, Hbody. reflexivity.
    + rewrite (run_typer_caught m w m' w' e); [reflexivity| |exact Hbody].
      destruct (typer_body_raises _ _ _ _ _ Hbody) as [k Hk]. eauto.
  - apply run_faults.
Qed.

(** C5.  Whatever exceptions of class [Exception] (which
    [pyautogui.FailSafeException] is) or [KeyboardInterrupt] the clipboard
    read and the keystroke emission raise, [type_clipboard_text] returns
    normally; the exception that ended its body is caught and a message
    that carries it is printed. *)
Theorem typer_failures_do_not_propagate m w :
  (forall n e, faults w n = Some e -> survivable e = true) ->
  result_of (run type_clipboard_text m w) = Return tt /\
  forall m' w' e,
    run type_clipboard_body m w = (m', w', Raise e) ->
    run type_clipboard_text m w
    = (m', emit (EPrint (typer_message e)) w', Return tt).
Proof.
  intros Hf.
  assert (Hcaught : forall m' w' e,
    run type_clipboard_body m w = (m', w', Raise e) ->
    run type_clipboard_text m w
    = (m', emit (EPrint (typer_message e)) w', Return tt)).
  { intros m' w' e Hbody. apply run_typer_caught; [|exact Hbody].
    destruct (typer_body_raises _ _ _ _ _ Hbody) as [k Hk]. eauto. }
  split; [|exact Hcaught].
  destruct (run type_clipboard_body m w) as [[m' w'] [[]|e]] eqn:Hbody.
  - unfold type_clipboard_text. rewrite run_try, Hbody. reflexivity.
  - rewrite (Hcaught m' w' e eq_refl). reflexivity.
Qed.

Lemma typer_failures_do_not_propagate_witness :
  let w := fresh_proc 1 (PyStr two_lines) (abort_at 3 FailSafeException) in
  (forall n e, faults w n = Some e -> survivable e = true) /\
  result_of (run type_clipboard_text (idle_machine false) w) = Return tt /\
  forall m' w' e,
    run type_clipboard_body (idle_machine false) w = (m', w', Raise e) ->
    run type_clipboard_text (idle_machine false) w
    = (m', emit (EPrint (typer_message e)) w', Return tt).
Proof.
  intros w.
  assert (H : forall n e, faults w n = Some e -> survivable e = true).
  { intros n e. simpl. unfold abort_at.
    destruct (Nat.eqb n 3); intros [= <-]; reflexivity. }
  split; [exact H|].
  exact (typer_failures_do_not_propagate (idle_machine false) w H).
Defined.

Lemma run_typer_nothing_to_type m w :
  reads_clipboard w -> truthy (clipboard w) = false ->
  run type_clipboard_text m w
  = (m, emit (EPrint (Msg "Clipboard is empty"))
          (ticked (emit (ESleep TYPING_DELAY) (ticked w))), Return tt).
Proof.
  intros [Hsleep Hpaste] Ht. unfold type_clipboard_text, type_clipboard_body.
  rewrite run_try, run_bind, run_perform, exec_sleep_ok by exact Hsleep.
  rewrite run_bind, run_perform, exec_paste_ok by exact Hpaste.
  cbn [clipboard emit ticked]. rewrite Ht. cbn [negb].
  rewrite run_perform. reflexivity.
Qed.

(** C7.  When the clipboard read yields the empty string or [None],
    [type_clipboard_text] prints "Clipboard is empty" and returns; it has
    emitted no character keystroke and no shift+enter, and has done
    nothing but sleep and print. *)
Theorem typer_empty_clipboard_noop m w :
  reads_clipboard w ->
  clipboard w = PyStr EmptyString \/ clipboard w = PyNone ->
  result_of (run type_clipboard_text m w) = Return tt /\
  events_of type_clipboard_text m w
  = [ESleep TYPING_DELAY; EPrint (Msg "Clipboard is empty")] /\
  keystrokes_of type_clipboard_text m w = [] /\
  written_lines (events_of type_clipboard_text m w) = [] /\
  List.filter is_shift_enter (events_of type_clipboard_text m w) = [] /\
  machine_of (run type_clipboard_text m w) = m.
Proof.
  intros Hr Hc.
  assert (Ht : truthy (clipboard w) = false) by (destruct Hc as [-> | ->]; reflexivity).
  unfold keystrokes_of, events_of.
  rewrite (run_typer_nothing_to_type m w Hr Ht).
  cbn [result_of proc_of machine_of fst snd trace emit ticked].
  rewrite <- app_assoc, drop_app_length. cbn [app].
  repeat split.
Qed.

Lemma typer_empty_clipboard_noop_witness :
  let w := fresh_proc 1 (PyStr EmptyString) no_faults in
  let m := idle_machine false in
  reads_clipboard w /\
  (clipboard w = PyStr EmptyString \/ clipboard w = PyNone) /\
  result_of (run type_clipboard_text m w) = Return tt /\
  events_of type_clipboard_text m w
  = [ESleep TYPING_DELAY; EPrint (Msg "Clipboard is empty")] /\
  keystrokes_of type_clipboard_text m w = [] /\
  written_lines (events_of type_clipboard_text m w) = [] /\
  List.filter is_shift_enter (events_of type_clipboard_text m w) = [] /\
  machine_of (run type_clipboard_text m w) = m.
Proof.
  intros w m.
  split; [split; reflexivity|]. split; [left; reflexivity|].
  apply typer_empty_clipboard_noop; [split; reflexivity | left; reflexivity].
Defined.

(** C10.  A clipboard read that yields [None] takes the branch of the
    empty string: the typer prints "Clipboard is empty" and returns after
    its two calls, the sleep and the read; the [split], which would raise
    on [None], is not reached and no exception is raised or reported. *)
Theorem typer_none_clipboard_is_empty_branch m w :
  reads_clipboard w ->
  let wN := set_clipboard PyNone w in
  let wE := set_clipboard (PyStr EmptyString) w in
  split PyNone LF = Raise AttributeError /\
  result_of (run type_clipboard_text m wN) = Return tt /\
  events_of type_clipboard_text m wN
  = [ESleep TYPING_DELAY; EPrint (Msg "Clipboard is empty")] /\
  events_of type_clipboard_text m wN = events_of type_clipboard_text m wE /\
  result_of (run type_clipboard_text m wN)
  = result_of (run type_clipboard_text m wE) /\
  tick (proc_of (run type_clipboard_text m wN)) = 2 + tick w.
Proof.
  intros Hr wN wE.
  assert (HN : run type_clipboard_text m wN
               = (m, emit (EPrint (Msg "Clipboard is empty"))
                       (ticked (emit (ESleep TYPING_DELAY) (ticked wN))),
                  Return tt))
    by (apply run_typer_nothing_to_type; [exact Hr | reflexivity]).
  assert (HE : run type_clipboard_text m wE
               = (m, emit (EPrint (Msg "Clipboard is empty"))
                       (ticked (emit (ESleep TYPING_DELAY) (ticked wE))),
                  Return tt))
    by (apply run_typer_nothing_to_type; [exact Hr | reflexivity]).
  unfold events_of. rewrite HN, HE.
  cbn [result_of proc_of fst snd trace emit ticked tick wN wE set_clipboard].
  rewrite <- app_assoc, drop_app_length. cbn [app].
  repeat split.
Qed.

Lemma typer_none_clipboard_is_empty_branch_witness :
  let w := fresh_proc 1 (PyStr two_lines) no_faults in
  let m := idle_machine false in
  reads_clipboard w /\
  split PyNone LF = Raise AttributeError /\
  result_of (run type_clipboard_text m (set_clipboard PyNone w)) = Return tt /\
  events_of type_clipboard_text m (set_clipboard PyNone w)
  = [ESleep TYPING_DELAY; EPrint (Msg "Clipboard is empty")] /\
  events_of type_clipboard_text m (set_clipboard PyNone w)
  = events_of type_clipboard_text m (set_clipboard (PyStr EmptyString) w) /\
  result_of (run type_clipboard_text m (set_clipboard PyNone w))
  = result_of (run type_clipboard_text m (set_clipboard (PyStr EmptyString) w)) /\
  tick (proc_of (run type_clipboard_text m (set_clipboard PyNone w)))
  = 2 + tick w.
Proof.
  intros w m. split; [split; reflexivity|].
  apply (typer_none_clipboard_is_empty_branch m w). split; reflexivity.
Defined.

(** ** Claims on the lock guard *)

Lemma run_ret {A} (a : A) m w : run (Ret a) m w = (m, w, Return a).
Proof. reflexivity. Qed.

Lemma run_throw {A} e m w : run (@Throw A e) m w = (m, w, Raise e).
Proof. reflexivity. Qed.

(** Following a run call by call: [norm] computes up to the next
    question put to the outside world, [split_one] answers it both ways
    (the injected failure of the call, the availability of the locking
    module, the owner of the lock). *)
Ltac norm :=
  repeat first
    [ rewrite run_try | rewrite run_bind | rewrite run_closing
    | rewrite run_perform | rewrite run_ret | rewrite run_throw
    | progress unfold outside, handle_fileno, handle_flock, handle_close,
        with_open, pass, try_lock, owner_is, unlock_if_owner, exec_close,
        close_file, fd_is_open, set_owner, set_exists, set_handle, set_files,
        set_atexit, emit, ticked
    | progress cbv beta iota zeta
    | progress cbn [exec dispatch lift
        pid LOCK_FILE_HANDLE ICON_INSTANCE files atexit_funcs clipboard trace
        faults tick lock_owner lock_file_exists available fo_fd fo_closed
        app length existsb negb andb orb Nat.eqb Nat.add
        lookup list_lookup insert list_insert fst snd
        result_of proc_of machine_of is_OSError is_ImportError ] ].

Ltac split_one :=
  match goal with
  | |- context [match ?flt ?k with Some _ => _ | None => _ end] =>
      is_var flt; destruct (flt k) eqn:?
  | |- context [if ?av ?md then _ else _] =>
      is_var av; destruct (av md) eqn:?
  | |- context [match ?lo with Some _ => _ | None => _ end] =>
      is_var lo; destruct lo as [[? ?]|]
  | |- context [Nat.eqb ?a ?b] => destruct (Nat.eqb a b) eqn:?
  | |- context [is_OSError ?e] => is_var e; destruct (is_OSError e) eqn:?
  | |- context [is_ImportError ?e] =>
      is_var e; destruct (is_ImportError e) eqn:?
  | |- context [if ?b then _ else _] => is_var b; destruct b
  | |- context [existsb ?g ?l] => is_var l; destruct (existsb g l) eqn:?
  end.

Ltac explore := norm; repeat (split_one; norm).

Lemma guard_returns_closed p m w :
  at_startup w ->
  match run (ensure_single_instance p) m w with
  | (_, w', Return b) =>
      no_open_file w' /\
      (forall f, LOCK_FILE_HANDLE w' = Some f ->
                 exists fd, files w' !! f = Some (FileObj fd true)) /\
      (b = true -> exists fd, handle_object w' = Some (FileObj fd true))
  | (_, _, Raise _) => True
  end.
Proof.
  intros [Hh Hf]. destruct w as [id h ic fs cbs clip tr flt t].
  destruct m as [lo ex av]. cbn in Hh, Hf. subst h fs.
  destruct p; unfold ensure_single_instance; explore.
  all: try exact I.
  all: unfold no_open_file, handle_object; cbn.
  all: repeat split; try (repeat constructor; fail); intros; try discriminate.
  all: try (eexists;
            match goal with
            | H : Some _ = Some _ |- _ => inversion H; subst
            end; reflexivity).
  all: try (eexists; reflexivity).
Qed.

(** C9.  Whenever [ensure_single_instance] returns, with either value,
    the file object the global [LOCK_FILE_HANDLE] refers to is closed,
    and the process is left without any open lock-file object; when it
    returns [True] the global does refer to such a closed file object. *)
Theorem ensure_single_instance_closes_handle p m w m' w' b :
  at_startup w ->
  run (ensure_single_instance p) m w = (m', w', Return b) ->
  no_open_file w' /\
  (forall f, LOCK_FILE_HANDLE w' = Some f ->
             exists fd, files w' !! f = Some (FileObj fd true)) /\
  (b = true -> exists fd, handle_object w' = Some (FileObj fd true)).
Proof.
  intros Hs Hrun. pose proof (guard_returns_closed p m w Hs) as H.
  rewrite Hrun in H. exact H.
Qed.

Lemma ensure_single_instance_closes_handle_witness :
  let m := idle_machine false in
  let w := fresh_proc 1 PyNone no_faults in
  let r := run (ensure_single_instance Posix) m w in
  at_startup w /\
  r = (machine_of r, proc_of r, Return true) /\
  no_open_file (proc_of r) /\
  (forall f, LOCK_FILE_HANDLE (proc_of r) = Some f ->
             exists fd, files (proc_of r) !! f = Some (FileObj fd true)) /\
  (true = true -> exists fd, handle_object (proc_of r) = Some (FileObj fd true)).
Proof.
  intros m w r.
  assert (Hs : at_startup w) by (split; reflexivity).
  assert (Hr : r = (machine_of r, proc_of r, Return true))
    by (vm_compute; reflexivity).
  split; [exact Hs|]. split; [exact Hr|].
  exact (ensure_single_instance_closes_handle Posix m w (machine_of r)
           (proc_of r) true Hs Hr).
Defined.

(** C4.  [ensure_single_instance] returns [False], and so neither raises
    nor returns [True], whenever another process holds the lock, whenever
    the locking module of the platform cannot be imported, and whenever
    one of its calls fails with an I/O error. *)
Theorem ensure_single_instance_fail_closed p m w :
  at_startup w -> guard_failures w ->
  held_by_other m w \/
  available m (locking_module p) = false \/
  (exists n, n < guard_calls p /\ faults w (n + tick w) <> None) ->
  result_of (run (ensure_single_instance p) m w) = Return false.
Proof.
  intros [Hh Hf] Hg Hcond. destruct w as [id h ic fs cbs clip tr flt t].
  destruct m as [lo ex av]. cbn in Hh, Hf. subst h fs.
  destruct p; unfold ensure_single_instance; explore.
  all: try reflexivity.
  all: destruct Hg as [Himp Hio]; cbn in Himp, Hio.
  all: try match goal with
           | F : _ = Some ?e, G : is_ImportError ?e = false |- _ =>
               rewrite (Himp e F) in G; discriminate G
           end.
  all: try match goal with
           | F : _ = Some ?e, G : is_OSError ?e = false |- _ =>
               first [ rewrite (Hio 0 e F) in G | rewrite (Hio 1 e F) in G
                     | rewrite (Hio 2 e F) in G | rewrite (Hio 3 e F) in G
                     | rewrite (Hio 4 e F) in G ];
               discriminate G
           end.
  all: exfalso; destruct Hcond as [Hheld | [Hav | (nf & Hn & Hfault)]].
  all: try (cbn in Hav; congruence).
  all: try (destruct Hheld as (q' & fd' & Ho & Hne); cbn in Ho, Hne;
            first [ discriminate Ho
                  | inversion Ho; subst;
                    match goal with
                    | E : Nat.eqb _ _ = true |- _ =>
                        apply Nat.eqb_eq in E; congruence
                    end ]).
  all: cbn in Hn;
    assert (Hcases : nf = 0 \/ nf = 1 \/ nf = 2 \/ nf = 3 \/ nf = 4 \/ nf = 5)
      by lia;
    destruct Hcases as [-> | [-> | [-> | [-> | [-> | ->]]]]];
    cbn in Hfault; first [congruence | lia].
Qed.

Lemma ensure_single_instance_fail_closed_witness :
  let m := Machine (Some (7, 3)) true (fun _ => true) in
  let w := fresh_proc 1 PyNone no_faults in
  at_startup w /\ guard_failures w /\ held_by_other m w /\
  result_of (run (ensure_single_instance Posix) m w) = Return false.
Proof.
  intros m w.
  assert (Hs : at_startup w) by (split; reflexivity).
  assert (Hg : guard_failures w) by (split; intros; discriminate).
  assert (Hh : held_by_other m w)
    by (exists 7, 3; split; [reflexivity | discriminate]).
  split; [exact Hs|]. split; [exact Hg|]. split; [exact Hh|].
  exact (ensure_single_instance_fail_closed Posix m w Hs Hg (or_introl Hh)).
Defined.

(** The guard prints nothing and starts nothing. *)
Lemma guard_is_silent p m w :
  at_startup w ->
  trace (proc_of (run (ensure_single_instance p) m w)) = trace w /\
  ICON_INSTANCE (proc_of (run (ensure_single_instance p) m w))
  = ICON_INSTANCE w.
Proof.
  intros [Hh Hf]. destruct w as [id h ic fs cbs clip tr flt t].
  destruct m as [lo ex av]. cbn in Hh, Hf. subst h fs.
  destruct p; unfold ensure_single_instance; explore; split; reflexivity.
Qed.

(** C8 (amended).  When [ensure_single_instance] returns [False] at
    start-up and the print of the message does not raise, the main block
    prints the message and ends with [sys.exit(0)]: exit status 0, and
    the print is all the process has done, no thread started and no tray
    icon created. *)
Theorem second_instance_exits_at_once p m w m1 w1 :
  at_startup w ->
  run (ensure_single_instance p) m w = (m1, w1, Return false) ->
  faults w1 (tick w1) = None ->
  run (main p) m w
  = (m1,
     emit (EPrint (Msg "üê± CopyCat is already running! Exiting this instance.")) (ticked w1),
     Raise (SystemExit 0)) /\
  exit_status (result_of (run (main p) m w)) = 0%Z /\
  events_of (main p) m w
  = [EPrint (Msg "üê± CopyCat is already running! Exiting this instance.")] /\
  List.filter is_thread_start (events_of (main p) m w) = [] /\
  List.filter is_icon_event (events_of (main p) m w) = [] /\
  ICON_INSTANCE (proc_of (run (main p) m w)) = ICON_INSTANCE w.
Proof.
  intros Hs Hrun Hprint.
  destruct (guard_is_silent p m w Hs) as [Htr Hic].
  rewrite Hrun in Htr, Hic. cbn [proc_of fst snd] in Htr, Hic.
  assert (Hmain : run (main p) m w
    = (m1,
       emit (EPrint (Msg "üê± CopyCat is already running! Exiting this instance."))
         (ticked w1),
       Raise (SystemExit 0))).
  { unfold main. rewrite run_bind, Hrun. cbn [negb].
    rewrite run_bind, run_perform, exec_print_ok
      by first [reflexivity | exact Hprint].
    reflexivity. }
  unfold events_of. rewrite Hmain.
  cbn [result_of proc_of fst snd trace emit ticked exit_status ICON_INSTANCE].
  rewrite Htr, drop_app_length. repeat split. exact Hic.
Qed.

Lemma second_instance_exits_at_once_witness :
  let m := Machine (Some (7, 3)) true (fun _ => true) in
  let w := fresh_proc 1 PyNone no_faults in
  let r := run (ensure_single_instance Win32) m w in
  at_startup w /\
  r = (machine_of r, proc_of r, Return false) /\
  faults (proc_of r) (tick (proc_of r)) = None /\
  exit_status (result_of (run (main Win32) m w)) = 0%Z /\
  events_of (main Win32) m w
  = [EPrint (Msg "üê± CopyCat is already running! Exiting this instance.")].
Proof.
  intros m w r.
  assert (Hs : at_startup w) by (split; reflexivity).
  assert (Hr : r = (machine_of r, proc_of r, Return false))
    by (vm_compute; reflexivity).
  assert (Hp : faults (proc_of r) (tick (proc_of r)) = None) by reflexivity.
  split; [exact Hs|]. split; [exact Hr|]. split; [exact Hp|].
  destruct (second_instance_exits_at_once Win32 m w (machine_of r) (proc_of r)
              Hs Hr Hp) as (_ & Hst & Hev & _).
  split; [exact Hst | exact Hev].
Defined.

(** C8 as stated fails when the print raises: the message begins with
    characters outside ASCII, and on a console that cannot encode them
    [print] raises [UnicodeEncodeError] before [sys.exit(0)] is reached;
    the process then ends with that exception, exit status 1, nothing
    printed. *)
Lemma second_instance_print_raises :
  let m := Machine (Some (7, 3)) true (fun _ => true) in
  let w := fresh_proc 1 PyNone (abort_at 4 UnicodeEncodeError) in
  at_startup w /\
  result_of (run (ensure_single_instance Posix) m w) = Return false /\
  result_of (run (main Posix) m w) = Raise UnicodeEncodeError /\
  exit_status (result_of (run (main Posix) m w)) = 1%Z /\
  events_of (main Posix) m w = [].
Proof. vm_compute. repeat split. Qed.

(** Whatever the print does, a second instance starts no thread and
    creates no tray icon, and the main block does not go on. *)
Lemma second_instance_starts_nothing p m w m1 w1 :
  at_startup w ->
  run (ensure_single_instance p) m w = (m1, w1, Return false) ->
  (exists e, result_of (run (main p) m w) = Raise e) /\
  List.filter is_thread_start (events_of (main p) m w) = [] /\
  List.filter is_icon_event (events_of (main p) m w) = [] /\
  ICON_INSTANCE (proc_of (run (main p) m w)) = ICON_INSTANCE w.
Proof.
  intros Hs Hrun.
  destruct (guard_is_silent p m w Hs) as [Htr Hic].
  rewrite Hrun in Htr, Hic. cbn [proc_of fst snd] in Htr, Hic.
  unfold events_of, main. rewrite run_bind, Hrun. cbn [negb].
  rewrite run_bind, run_perform.
  destruct (faults w1 (tick w1)) as [e|] eqn:F.
  - rewrite (exec_print_raise _ _ _ e) by first [reflexivity | exact F].
    cbn [result_of proc_of fst snd trace ticked ICON_INSTANCE].
    rewrite Htr, drop_all. repeat split; [eexists; reflexivity | exact Hic].
  - rewrite exec_print_ok by first [reflexivity | exact F].
    cbn [run sys_exit result_of proc_of fst snd trace emit ticked ICON_INSTANCE].
    rewrite Htr, drop_app_length.
    repeat split; [eexists; reflexivity | exact Hic].
Qed.

(** ** Teardown *)

Lemma release_lock_without_handle p m w :
  LOCK_FILE_HANDLE w = None -> run (release_lock p) m w = (m, w, Return tt).
Proof.
  intros Hh. unfold release_lock. rewrite run_bind, run_perform.
  cbn [exec]. rewrite Hh. reflexivity.
Qed.

(** With an open lock file, and failures that are I/O errors, the
    teardown does return. *)
Lemma release_lock_with_open_handle p m w f fd :
  LOCK_FILE_HANDLE w = Some f -> files w !! f = Some (FileObj fd false) ->
  guard_failures w ->
  result_of (run (release_lock p) m w) = Return tt.
Proof.
  intros Hh Hfile Hg. destruct w as [id h ic fs cbs clip tr flt t].
  destruct m as [lo ex av]. cbn in Hh, Hfile. subst h.
  destruct p; unfold release_lock; norm;
    repeat (first [rewrite Hfile | split_one]; norm).
  all: try reflexivity.
  all: destruct Hg as [Himp Hio]; cbn in Himp, Hio.
  all: try match goal with
           | F : _ = Some ?e, G : is_ImportError ?e = false |- _ =>
               rewrite (Himp e F) in G; discriminate G
           end.
  all: try match goal with
           | F : _ = Some ?e, G : is_OSError ?e = false |- _ =>
               first [ rewrite (Hio 0 e F) in G | rewrite (Hio 1 e F) in G
                     | rewrite (Hio 2 e F) in G | rewrite (Hio 3 e F) in G
                     | rewrite (Hio 4 e F) in G ];
               discriminate G
           end.
Qed.

(** X13.  On a closed lock file [fileno()] and [flock] raise [ValueError],
    which no [except] clause of [release_lock] names. *)
Lemma release_lock_with_closed_handle p m w f fd :
  LOCK_FILE_HANDLE w = Some f -> files w !! f = Some (FileObj fd true) ->
  available m (locking_module p) = true ->
  faults w (tick w) = None -> faults w (S (tick w)) = None ->
  result_of (run (release_lock p) m w) = Raise ValueError.
Proof.
  intros Hh Hfile Hav F0 F1. destruct w as [id h ic fs cbs clip tr flt t].
  destruct m as [lo ex av]. cbn in Hh, Hfile, Hav, F0, F1. subst h.
  destruct p; unfold release_lock; cbn in Hav; norm;
    repeat (first [rewrite Hfile | rewrite Hav | rewrite F0 | rewrite F1]; norm);
    reflexivity.
Qed.

(** C3 fails on the code: after a successful start-up on either
    platform the global refers to a closed file object (the guard's
    [with] block closed it), and [release_lock], run at exit, raises
    [ValueError]; the lock file is not removed either. *)
Theorem release_lock_raises_after_startup (p : platform) :
  result_of (run (ensure_single_instance p) (idle_machine false)
               (fresh_proc 1 PyNone no_faults)) = Return true /\
  atexit_funcs (snd (after_startup p)) = [cb_release_lock] /\
  handle_object (snd (after_startup p)) = Some (FileObj 3 true) /\
  result_of (run (release_lock p) (fst (after_startup p))
               (snd (after_startup p))) = Raise ValueError /\
  lock_file_exists (machine_of (run (release_lock p) (fst (after_startup p))
                                  (snd (after_startup p)))) = true.
Proof. destruct p; vm_compute; repeat split. Qed.

(** ** Mutual exclusion *)

(** On a machine where nobody holds the lock the guard answers [True]
    and leaves the lock free again: the [with] block has closed the
    file, and with it given up the lock, before the function returns. *)
Lemma guard_gives_up_lock p m w :
  at_startup w -> quiet w -> lock_owner m = None ->
  available m (locking_module p) = true ->
  result_of (run (ensure_single_instance p) m w) = Return true /\
  machine_of (run (ensure_single_instance p) m w) = set_exists true m.
Proof.
  intros [Hh Hf] Hq Hlo Hav. destruct w as [id h ic fs cbs clip tr flt t].
  destruct m as [lo ex av]. cbn in Hh, Hf, Hlo, Hav. subst h fs lo.
  assert (Hq' : forall k, flt k = None) by exact Hq.
  destruct p; unfold ensure_single_instance; cbn in Hav; norm;
    repeat (first [rewrite Hav | rewrite Hq' | rewrite Nat.eqb_refl]; norm);
    split; reflexivity.
Qed.

(** X10.  However many processes start one after the other on an idle
    machine, each of them is told it is the only instance. *)
Lemma start_in_turn_all_true p ws : forall m,
  Forall (fun w => at_startup w /\ quiet w) ws ->
  lock_owner m = None -> available m (locking_module p) = true ->
  start_in_turn p m ws = (fun _ => Return true) <$> ws.
Proof.
  induction ws as [|w rest IH]; intros m Hws Hlo Hav; [reflexivity|].
  inversion Hws as [|? ? [Hs Hq] Hrest]; subst.
  destruct (guard_gives_up_lock p m w Hs Hq Hlo Hav) as [Hres Hm].
  cbn [start_in_turn fmap list_fmap].
  destruct (run (ensure_single_instance p) m w) as [[m' w'] o].
  cbn [result_of machine_of fst snd] in Hres, Hm. subst o m'.
  f_equal. apply IH; [exact Hrest | exact Hlo | exact Hav].
Qed.

(** The lock itself does exclude: an attempt made while another process
    is between its lock call and the end of its [with] block is refused. *)
Example attempt_in_between_is_refused (p : platform) :
  observed <$> snd (interleave second_in_between (idle_machine false)
                      (startup_attempts p 2))
  = [Some (Return true); Some (Return false)].
Proof. destruct p; vm_compute; reflexivity. Qed.

(** C1 fails on the code: two start-up attempts on one machine, the
    second made once the first has its answer and is still running, both
    observe [True], and the lock is free afterwards. *)
Theorem two_startups_both_succeed (p : platform) :
  let '(m, tasks) :=
    interleave one_after_the_other (idle_machine false) (startup_attempts p 2)
  in
  observed <$> tasks = [Some (Return true); Some (Return true)] /\
  lock_owner m = None.
Proof. destruct p; vm_compute; split; reflexivity. Qed.

(** ** The hotkey listener *)

Section ListenerFacts.
Context {K : Type} {EqK : EqDecision K} {CntK : Countable K}
        {R : Type} (canonical : R -> K).
Implicit Types (chord down : gset K) (hk : HotKey K) (ev : key_event R).

Lemma tracks_new chord : tracks chord (HotKey_new chord) ∅.
Proof. split; [reflexivity|]. cbn. set_solver. Qed.

Lemma deliver_tracks chord hk down ev :
  tracks chord hk down ->
  tracks chord (fst (deliver canonical hk ev)) (after_event canonical down ev) /\
  snd (deliver canonical hk ev)
  = all_down chord (after_event canonical down ev) && negb (all_down chord down).
Proof.
  intros [Hk Hs]. destruct hk as [keys st]. cbn in Hk, Hs. subst keys st.
  destruct ev as [k|k]; cbn; unfold for_canonical, HotKey_press, HotKey_release,
    is_complete, all_down, tracks; cbn.
  - case_bool_decide as Hin; cbn.
    + split; [split; [reflexivity | set_solver]|].
      f_equal; [|f_equal]; apply bool_decide_ext; set_solver.
    + split; [split; [reflexivity | set_solver]|].
      symmetry. apply andb_false_iff.
      destruct (bool_decide (chord ⊆ down)) eqn:E; [right; reflexivity|left].
      apply bool_decide_eq_false. apply bool_decide_eq_false in E. set_solver.
  - split; [split; [reflexivity | set_solver]|].
    symmetry. apply andb_false_iff.
    destruct (bool_decide (chord ⊆ down)) eqn:E; [right; reflexivity|left].
    apply bool_decide_eq_false. apply bool_decide_eq_false in E. set_solver.
Qed.

Lemma all_down_empty chord : chord <> ∅ -> all_down chord ∅ = false.
Proof.
  intros Hne. apply bool_decide_eq_false. intros Hsub. apply Hne.
  apply leibniz_equiv. set_solver.
Qed.

(** What the listener does on a sequence of events is what the keys
    themselves say: it fires where an interval of completeness begins. *)
Lemma listen_interval_starts chord evs : forall hk down,
  tracks chord hk down ->
  listen canonical hk evs
  = interval_starts (all_down chord down)
      (all_down chord <$> tail (timeline canonical down evs)).
Proof.
  induction evs as [|ev rest IH]; intros hk down Ht; [reflexivity|].
  destruct (deliver_tracks chord hk down ev Ht) as [Ht' Hfired].
  cbn [listen]. destruct (deliver canonical hk ev) as [hk' fired].
  cbn [fst snd] in Ht', Hfired. subst fired.
  cbn [timeline tail]. rewrite (IH hk' _ Ht').
  destruct rest; reflexivity.
Qed.

Lemma hotkey_after_tracks chord evs : forall hk down,
  tracks chord hk down ->
  tracks chord (hotkey_after canonical hk evs) (down_after canonical down evs).
Proof.
  induction evs as [|ev rest IH]; intros hk down Ht; [exact Ht|].
  cbn. apply IH. apply deliver_tracks. exact Ht.
Qed.

Lemma listen_app evs more : forall hk,
  listen canonical hk (evs ++ more)
  = listen canonical hk evs
      ++ listen canonical (hotkey_after canonical hk evs) more.
Proof.
  induction evs as [|ev rest IH]; intros hk; [reflexivity|].
  cbn [app listen hotkey_after fold_left].
  destruct (deliver canonical hk ev) as [hk' fired]. cbn [fst].
  rewrite IH. reflexivity.
Qed.

(** While the chord is complete, presses fire nothing. *)
Lemma listen_held chord more : forall hk down,
  tracks chord hk down -> all_down chord down = true ->
  Forall (fun ev => is_press ev = true) more ->
  listen canonical hk more = repeat false (length more).
Proof.
  induction more as [|ev rest IH]; intros hk down Ht Hc Hp; [reflexivity|].
  inversion Hp as [|? ? Hev Hrest]; subst.
  destruct (deliver_tracks chord hk down ev Ht) as [Ht' Hfired].
  cbn [listen]. destruct (deliver canonical hk ev) as [hk' fired].
  cbn [fst snd] in Ht', Hfired. subst fired. rewrite Hc, andb_false_r.
  cbn [length repeat]. f_equal. apply (IH hk' _ Ht'); [|exact Hrest].
  destruct ev as [k|k]; [|discriminate Hev]. cbn.
  apply bool_decide_eq_true. apply bool_decide_eq_true in Hc. set_solver.
Qed.

Lemma fired_count_repeat_false n : fired_count (repeat false n) = 0.
Proof. induction n; [reflexivity|exact IHn]. Qed.

Lemma fired_count_app fs gs :
  fired_count (fs ++ gs) = fired_count fs + fired_count gs.
Proof. unfold fired_count. rewrite List.filter_app, length_app. reflexivity. Qed.

(** Pressing keys one after the other while the chord is not complete
    fires once if these keys complete it, and not at all otherwise. *)
Lemma listen_presses chord ks : forall hk down,
  tracks chord hk down -> all_down chord down = false ->
  fired_count (listen canonical hk (KeyPress <$> ks))
  = if all_down chord (down ∪ list_to_set (canonical <$> ks)) then 1 else 0.
Proof.
  induction ks as [|k rest IH]; intros hk down Ht Hc.
  - cbn. replace (all_down chord (down ∪ ∅)) with (all_down chord down);
      [now rewrite Hc|].
    apply bool_decide_ext. set_solver.
  - destruct (deliver_tracks chord hk down (KeyPress k) Ht) as [Ht' Hfired].
    cbn [fmap list_fmap listen].
    destruct (deliver canonical hk (KeyPress k)) as [hk' fired].
    cbn [fst snd] in Ht', Hfired. subst fired. rewrite Hc. cbn [negb].
    rewrite andb_true_r.
    replace (all_down chord (down ∪ list_to_set (canonical k :: (canonical <$> rest))))
      with (all_down chord (after_event canonical down (KeyPress k)
                            ∪ list_to_set (canonical <$> rest)))
      by (apply bool_decide_ext; cbn; set_solver).
    destruct (all_down chord (after_event canonical down (KeyPress k))) eqn:Hc'.
    + rewrite (listen_held chord _ hk' _ Ht' Hc').
      * change (fired_count (true :: ?l)) with (S (fired_count l)).
        rewrite fired_count_repeat_false.
        replace (all_down chord _) with true; [reflexivity|].
        symmetry. apply bool_decide_eq_true. apply bool_decide_eq_true in Hc'.
        set_solver.
      * apply Forall_fmap. apply Forall_true. reflexivity.
    + change (fired_count (false :: ?l)) with (fired_count l).
      apply (IH hk' _ Ht' Hc').
Qed.

(** C6.  For a chord with at least one key and every sequence of
    press and release events, made canonical by the listener: the
    callback fires exactly at the events with which a maximal interval
    of "all chord keys down" begins, hence exactly once per such
    interval; pressing the chord keys, in whatever order, fires it
    exactly once; and while all chord keys stay down, with no release
    in between, further presses do not fire it again. *)
Theorem chord_completion_semantics chord (evs : list (key_event R)) :
  chord <> ∅ ->
  activations canonical chord evs
  = tail (interval_starts false
            (all_down chord <$> timeline canonical ∅ evs)) /\
  fired_count (activations canonical chord evs)
  = complete_intervals canonical chord evs /\
  (forall ks : list R,
     list_to_set (canonical <$> ks) = chord ->
     fired_count (activations canonical chord (KeyPress <$> ks)) = 1) /\
  (forall more,
     all_down chord (down_after canonical ∅ evs) = true ->
     Forall (fun ev => is_press ev = true) more ->
     activations canonical chord (evs ++ more)
     = activations canonical chord evs ++ repeat false (length more)).
Proof.
  intros Hne. pose proof (all_down_empty chord Hne) as Hempty.
  assert (Hstarts : activations canonical chord evs
                    = tail (interval_starts false
                              (all_down chord <$> timeline canonical ∅ evs))).
  { unfold activations.
    rewrite (listen_interval_starts chord evs _ ∅ (tracks_new chord)).
    destruct evs; cbn [timeline fmap list_fmap interval_starts tail];
      rewrite ?Hempty; reflexivity. }
  split; [exact Hstarts|]. split; [|split].
  - rewrite Hstarts. unfold complete_intervals, fired_count.
    destruct evs; cbn [timeline fmap list_fmap interval_starts tail];
      rewrite Hempty; reflexivity.
  - intros ks Hks. unfold activations.
    rewrite (listen_presses chord ks _ ∅ (tracks_new chord) Hempty), Hks.
    replace (all_down chord (∅ ∪ chord)) with true; [reflexivity|].
    symmetry. apply bool_decide_eq_true. set_solver.
  - intros more Hc Hp. unfold activations. rewrite listen_app. f_equal.
    apply (listen_held chord more _ (down_after canonical ∅ evs));
      [|exact Hc|exact Hp].
    apply hotkey_after_tracks. apply tracks_new.
Qed.
End ListenerFacts.

Lemma HOTKEY_chord_keys : HOTKEY_chord = {["<ctrl>"; "<alt>"; "t"]}.
Proof. unfold HOTKEY_chord, parse. cbn. apply leibniz_equiv. set_solver. Qed.

Lemma HOTKEY_chord_not_empty : HOTKEY_chord <> ∅.
Proof. rewrite HOTKEY_chord_keys. set_solver. Qed.

(** The listener on the sample: it fires when the last chord key goes
    down and again when the letter is pressed anew, and at no other
    event. *)
Example activations_sample :
  activations canonical_name HOTKEY_chord sample_events
  = [false; false; false; true; false; false; false; true; false; false].
Proof. vm_compute. reflexivity. Qed.

Lemma chord_completion_semantics_witness :
  HOTKEY_chord <> ∅ /\
  fired_count (activations canonical_name HOTKEY_chord sample_events)
  = complete_intervals canonical_name HOTKEY_chord sample_events /\
  (forall ks : list string,
     list_to_set (canonical_name <$> ks) = HOTKEY_chord ->
     fired_count (activations canonical_name HOTKEY_chord (KeyPress <$> ks)) = 1).
Proof.
  split; [exact HOTKEY_chord_not_empty|].
  destruct (chord_completion_semantics canonical_name HOTKEY_chord
              sample_events HOTKEY_chord_not_empty) as (_ & Hcount & Horder & _).
  split; [exact Hcount | exact Horder].
Defined.

(** ** The listener thread and the typer together *)

Section ListenerSurvives.
Context {K : Type} {EqK : EqDecision K} {CntK : Countable K}
        {R : Type} (canonical : R -> K).

(** As long as the clipboard read and the keystroke emission raise
    nothing but [Exception]s and [KeyboardInterrupt], the listener
    thread handles every event it is given: no activation of the typer
    ends it. *)
Lemma listener_thread_survives (evs : list (key_event R)) :
  forall (hk : HotKey K) m w,
    (forall n e, faults w n = Some e -> survivable e = true) ->
    result_of (listener_thread canonical hk evs m w) = Return tt.
Proof.
  induction evs as [|ev rest IH]; intros hk m w Hf; [reflexivity|].
  cbn [listener_thread]. destruct (deliver canonical hk ev) as [hk' fired].
  destruct fired; [|apply IH; exact Hf].
  destruct (typer_failures_survivable m w Hf) as [Hres Hfaults].
  unfold on_activate.
  destruct (run type_clipboard_text m w) as [[m' w'] [[]|e]];
    cbn [result_of snd proc_of fst] in Hres, Hfaults; [|discriminate Hres].
  apply IH. intros n e. rewrite Hfaults. apply Hf.
Qed.
End ListenerSurvives.

(** X7.  As long as the clipboard read and the keystroke emission raise
    nothing but [Exception]s and [KeyboardInterrupt],
    [start_hotkey_listener] handles every event it is given: no
    activation of the typer ends the listener thread. *)
Lemma start_hotkey_listener_survives {R : Type} (canonical : R -> string)
    (evs : list (key_event R)) m w :
  (forall n e, faults w n = Some e -> survivable e = true) ->
  result_of (start_hotkey_listener canonical evs m w) = Return tt.
Proof. apply listener_thread_survives. Qed.

(** ** Running alone and running among others *)

(** A task that is given the steps runs its body as [run] does. *)
Lemma interleave_alone (p : prog bool) : forall m w,
  exists n,
    interleave (repeat 0 n) m [Task w p]
    = (machine_of (run p m w),
       [Task (proc_of (run p m w)) (lift (result_of (run p m w)))]).
Proof.
  induction p as [b|e|X c k IH]; intros m w.
  - exists 0. reflexivity.
  - exists 0. reflexivity.
  - destruct (exec c m w) as [[m' w'] o] eqn:Hexec.
    destruct (IH o m' w') as [n Hn]. exists (S n).
    cbn [repeat interleave lookup list_lookup step_task task_prog task_proc].
    rewrite Hexec. cbn [insert list_insert]. rewrite Hn.
    cbn [run]. rewrite Hexec. reflexivity.
Qed.

(** * Further properties of the code *)

(** ** Further facts: the typer *)

Lemma all_calls_bind {A B} P (p : prog A) (f : A -> prog B) :
  all_calls P p -> (forall a, all_calls P (f a)) -> all_calls P (bind p f).
Proof.
  induction p as [a|e|X c k IH]; cbn; intros Hp Hf; auto.
  destruct Hp as [Hc Hk]. split; [exact Hc|]. intros o. apply IH; auto.
Qed.

Lemma all_calls_try {A} P (p : prog A) clauses :
  all_calls P p -> (forall e, all_calls P (dispatch clauses e)) ->
  all_calls P (try_ p clauses).
Proof.
  induction p as [a|e|X c k IH]; cbn; intros Hp Hd; auto.
  destruct Hp as [Hc Hk]. split; [exact Hc|]. intros o. apply IH; auto.
Qed.

Lemma all_calls_perform {X} (P : forall X, call X -> Prop) (c : call X) :
  P X c -> all_calls P (perform c).
Proof. intros Hc. cbn. split; [exact Hc|]. intros [x|e]; exact I. Qed.

(** A program whose calls all leave some observation of the host alone
    leaves it alone. *)
Lemma run_keeps {A O} (obs : machine -> proc -> O)
    (P : forall X, call X -> Prop) (p : prog A) :
  (forall X (c : call X) m w, P X c ->
     obs (machine_of (exec c m w)) (proc_of (exec c m w)) = obs m w) ->
  all_calls P p ->
  forall m w, obs (machine_of (run p m w)) (proc_of (run p m w)) = obs m w.
Proof.
  intros Hexec. induction p as [a|e|X c k IH]; intros Hp m w;
    try reflexivity.
  destruct Hp as [Hc Hk]. cbn [run]. specialize (Hexec X c m w Hc).
  destruct (exec c m w) as [[m' w'] o]. cbn [machine_of proc_of fst snd] in Hexec.
  rewrite (IH o (Hk o)). exact Hexec.
Qed.

Lemma type_lines_calls lines : forall n i, all_calls typer_call (type_lines n i lines).
Proof.
  induction lines as [|line rest IH]; intros n i; [exact I|].
  cbn [type_lines]. apply all_calls_bind; [apply all_calls_perform; exact I|].
  intros _. apply all_calls_bind.
  - destruct (Nat.ltb i (n - 1)); [apply all_calls_perform|]; exact I.
  - intros _. apply IH.
Qed.

Lemma typer_calls : all_calls typer_call type_clipboard_text.
Proof.
  unfold type_clipboard_text. apply all_calls_try.
  - unfold type_clipboard_body.
    apply all_calls_bind; [apply all_calls_perform; exact I|]. intros _.
    apply all_calls_bind; [apply all_calls_perform; exact I|]. intros text.
    destruct (negb (truthy text)); [apply all_calls_perform; exact I|].
    apply all_calls_bind; [apply all_calls_perform; exact I|]. intros _.
    apply all_calls_bind; [destruct (Py.split text LF); exact I|]. intros lines.
    apply all_calls_bind; [apply type_lines_calls|]. intros _.
    apply all_calls_perform; exact I.
  - intros e. cbn [dispatch].
    destruct (_ || _); [apply all_calls_perform; exact I|].
    destruct (is_Exception e); [apply all_calls_perform; exact I|exact I].
Qed.

(** X5.  The typer, whatever fails, leaves the lock, the lock file, the file
    objects, the two globals, the [atexit] list and the clipboard as they
    were: it only sleeps, reads the clipboard, emits keystrokes and
    prints. *)
Theorem typer_leaves_host_alone m w :
  host_state (machine_of (run type_clipboard_text m w))
             (proc_of (run type_clipboard_text m w))
  = host_state m w.
Proof.
  apply (run_keeps host_state typer_call); [|exact typer_calls].
  intros X c m0 w0 Hc.
  destruct c; try contradiction; cbn; unfold outside;
    repeat case_match; reflexivity.
Qed.

(** What the loop has typed when it ends, however it ends, is a
    beginning of the keystroke sequence of its lines, and all of it if
    the loop came to its end. *)
Lemma run_type_lines_prefix lines : forall n i m w,
  n = i + length lines ->
  exists evs,
    trace (proc_of (run (type_lines n i lines) m w)) = trace w ++ evs /\
    evs `prefix_of` segments lines /\
    (result_of (run (type_lines n i lines) m w) = Return tt ->
     evs = segments lines).
Proof.
  induction lines as [|line rest IH]; intros n i m w Hn.
  - exists []. cbn. rewrite app_nil_r. repeat split. reflexivity.
  - cbn [type_lines]. rewrite run_bind, run_perform. cbn [exec].
    unfold outside. destruct (faults w (tick w)) as [e|] eqn:F0.
    { exists []. cbn. rewrite app_nil_r. split; [reflexivity|].
      split; [apply prefix_nil|discriminate]. }
    rewrite run_bind. destruct rest as [|line' rest'].
    + replace (Nat.ltb i (n - 1)) with false
        by (symmetry; apply Nat.ltb_ge; simpl in Hn; lia).
      exists [EWrite line TYPING_INTERVAL]. cbn. repeat split. reflexivity.
    + replace (Nat.ltb i (n - 1)) with true
        by (symmetry; apply Nat.ltb_lt; simpl in Hn; lia).
      rewrite run_perform. cbn [exec]. unfold outside.
      cbn [faults tick emit ticked].
      destruct (faults w (S (tick w))) as [e|] eqn:F1.
      { exists [EWrite line TYPING_INTERVAL]. cbn. split; [reflexivity|].
        split; [|discriminate]. apply prefix_cons, prefix_nil. }
      match goal with
      | |- context [run (type_lines n (S i) ?ls) ?m0 ?w0] =>
          destruct (IH n (S i) m0 w0) as (evs & Htr & Hpre & Hall)
      end; [simpl in *; lia|].
      exists (EWrite line TYPING_INTERVAL :: shift_enter :: evs).
      split; [|split].
      * rewrite Htr. cbn [trace emit ticked]. rewrite <- !app_assoc. reflexivity.
      * change (segments (line :: line' :: rest'))
          with (EWrite line TYPING_INTERVAL :: shift_enter
                :: segments (line' :: rest')).
        apply prefix_cons, prefix_cons. exact Hpre.
      * intros Hres. rewrite (Hall Hres). reflexivity.
Qed.

Lemma typer_body_trace m w :
  exists evs,
    trace (proc_of (run type_clipboard_body m w)) = trace w ++ evs /\
    List.filter is_keystroke evs `prefix_of` full_keystrokes (clipboard w).
Proof.
  unfold type_clipboard_body.
  rewrite run_bind, run_perform. cbn [exec]. unfold outside.
  destruct (faults w (tick w)) as [e|] eqn:F0.
  { exists []. cbn. rewrite app_nil_r. split; [reflexivity|apply prefix_nil]. }
  rewrite run_bind, run_perform. cbn [exec]. unfold outside.
  cbn [faults tick emit ticked clipboard].
  destruct (faults w (S (tick w))) as [e|] eqn:F1.
  { exists [ESleep TYPING_DELAY]. cbn. split; [reflexivity|apply prefix_nil]. }
  unfold full_keystrokes.
  destruct (clipboard w) as [|[|c s]] eqn:Hclip; cbn [truthy negb].
  - rewrite run_perform, exec_print_ascii by reflexivity.
    exists [ESleep TYPING_DELAY; EPrint (Msg "Clipboard is empty")].
    cbn. rewrite <- app_assoc. split; [reflexivity|apply prefix_nil].
  - rewrite run_perform, exec_print_ascii by reflexivity.
    exists [ESleep TYPING_DELAY; EPrint (Msg "Clipboard is empty")].
    cbn. rewrite <- app_assoc. split; [reflexivity|apply prefix_nil].
  - rewrite run_bind, run_perform.
    destruct (faults w (S (S (tick w)))) as [e|] eqn:F2.
    { rewrite (exec_print_raise _ _ _ e) by first [reflexivity | exact F2].
      exists [ESleep TYPING_DELAY]. cbn. split; [reflexivity|apply prefix_nil]. }
    rewrite exec_print_ok by first [reflexivity | exact F2].
    rewrite run_bind. cbn [Py.split lift run]. rewrite run_bind.
    match goal with
    | |- context [run (type_lines ?n 0 ?ls) ?m0 ?w0] =>
        destruct (run_type_lines_prefix ls n 0 m0 w0 eq_refl)
          as (evs & Htr & Hpre & _);
        destruct (run (type_lines n 0 ls) m0 w0) as [[m1 w1] [[]|e]]
    end; cbn [proc_of fst snd] in Htr.
    + rewrite run_perform.
      destruct (faults w1 (tick w1)) as [e|] eqn:F3.
      * rewrite (exec_print_raise _ _ _ e) by first [reflexivity | exact F3].
        exists ([ESleep TYPING_DELAY; EPrint (Msg "üê± CopyCat typing clipboard...")] ++ evs).
        split.
        -- cbn [proc_of fst snd trace ticked]. rewrite Htr.
           cbn [trace emit ticked]. rewrite <- !app_assoc. reflexivity.
        -- rewrite !List.filter_app.
           cbn [List.filter is_keystroke is_write is_hotkey orb app].
           destruct Hpre as [k Hk].
           rewrite <- (segments_all_keystrokes (str_split _ _)), Hk.
           rewrite List.filter_app. apply prefix_app_r. reflexivity.
      * rewrite exec_print_ok by first [reflexivity | exact F3].
        exists ([ESleep TYPING_DELAY; EPrint (Msg "üê± CopyCat typing clipboard...")]
                ++ evs ++ [EPrint (Msg "‚úì Clipboard contents typed successfully")]).
        split.
        -- cbn [proc_of fst snd trace emit ticked]. rewrite Htr.
           cbn [trace emit ticked]. rewrite <- !app_assoc. reflexivity.
        -- rewrite !List.filter_app.
           cbn [List.filter is_keystroke is_write is_hotkey orb app].
           rewrite app_nil_r. destruct Hpre as [k Hk].
           rewrite <- (segments_all_keystrokes (str_split _ _)), Hk.
           rewrite List.filter_app. apply prefix_app_r. reflexivity.
    + exists ([ESleep TYPING_DELAY; EPrint (Msg "üê± CopyCat typing clipboard...")] ++ evs).
      split.
      * cbn [proc_of fst snd]. rewrite Htr. cbn [trace emit ticked].
        rewrite <- !app_assoc. reflexivity.
      * rewrite !List.filter_app.
        cbn [List.filter is_keystroke is_write is_hotkey orb app].
        destruct Hpre as [k Hk].
        rewrite <- (segments_all_keystrokes (str_split _ _)), Hk.
        rewrite List.filter_app. apply prefix_app_r. reflexivity.
Qed.

Lemma typer_trace m w :
  exists evs,
    trace (proc_of (run type_clipboard_text m w)) = trace w ++ evs /\
    List.filter is_keystroke evs `prefix_of` full_keystrokes (clipboard w).
Proof.
  destruct (typer_body_trace m w) as (evs & Htr & Hpre).
  unfold type_clipboard_text. rewrite run_try.
  destruct (run type_clipboard_body m w) as [[m' w'] [[]|e]];
    cbn [proc_of fst snd] in Htr.
  - exists evs. split; assumption.
  - cbn [dispatch].
    destruct (_ || _); [|destruct (is_Exception e)].
    + rewrite run_perform, exec_print_ascii by reflexivity.
      cbn [proc_of fst snd trace emit].
      exists (evs ++ [EPrint (MsgExn "Typing interrupted: " e)]).
      rewrite Htr, <- app_assoc. split; [reflexivity|].
      rewrite List.filter_app. cbn. rewrite app_nil_r. exact Hpre.
    + rewrite run_perform, exec_print_ascii by reflexivity.
      cbn [proc_of fst snd trace emit].
      exists (evs ++ [EPrint (MsgExn "Error typing clipboard: " e)]).
      rewrite Htr, <- app_assoc. split; [reflexivity|].
      rewrite List.filter_app. cbn. rewrite app_nil_r. exact Hpre.
    + exists evs. split; assumption.
Qed.

(** X2.  Whatever call fails and whenever, the keystrokes the typer has
    emitted are a beginning of the keystroke sequence of the clipboard
    text: nothing is typed out of order, twice, or beyond the text. *)
Theorem typer_keystrokes_are_a_prefix m w :
  keystrokes_of type_clipboard_text m w `prefix_of` full_keystrokes (clipboard w).
Proof.
  destruct (typer_trace m w) as (evs & Htr & Hpre).
  unfold keystrokes_of, events_of. rewrite Htr, drop_app_length. exact Hpre.
Qed.

Lemma written_lines_keystrokes tr :
  written_lines (List.filter is_keystroke tr) = written_lines tr.
Proof.
  induction tr as [|ev rest IH]; [reflexivity|].
  destruct ev; cbn; rewrite ?IH; reflexivity.
Qed.

Lemma segments_no_line_feed lines :
  Forall (fun line => str_count LF line = 0) lines ->
  Forall (fun ev => match ev with
                    | EWrite line _ => str_count LF line = 0
                    | EHotkey _ => ev = shift_enter
                    | _ => True
                    end) (segments lines).
Proof.
  induction lines as [|line rest IH]; intros Hl; [constructor|].
  inversion Hl as [|? ? Hline Hrest]; subst.
  destruct rest as [|line' rest'].
  - repeat constructor. exact Hline.
  - change (segments (line :: line' :: rest'))
      with (EWrite line TYPING_INTERVAL :: shift_enter
            :: segments (line' :: rest')).
    constructor; [exact Hline|]. constructor; [reflexivity|]. apply IH, Hrest.
Qed.

(** X3.  Whatever the clipboard holds and whatever fails, no line handed
    to [pyautogui.write] contains a line feed, and the only key
    combination pressed is shift+enter.  (Other characters of the text,
    a carriage return among them, stay in their line.) *)
Theorem typer_never_sends_a_line_feed m w :
  Forall (fun line => str_count LF line = 0)
         (written_lines (events_of type_clipboard_text m w)) /\
  Forall (fun ev => is_hotkey ev = false \/ ev = shift_enter)
         (events_of type_clipboard_text m w).
Proof.
  destruct (typer_trace m w) as (evs & Htr & [k Hk]).
  unfold events_of. rewrite Htr, drop_app_length.
  assert (Hall : Forall (fun ev => match ev with
                                   | EWrite line _ => str_count LF line = 0
                                   | EHotkey _ => ev = shift_enter
                                   | _ => True
                                   end) (List.filter is_keystroke evs)).
  { assert (Hfull : Forall (fun ev => match ev with
                                      | EWrite line _ => str_count LF line = 0
                                      | EHotkey _ => ev = shift_enter
                                      | _ => True
                                      end) (full_keystrokes (clipboard w))).
    { unfold full_keystrokes. destruct (clipboard w) as [|s]; cbn; [constructor|].
      destruct s; [constructor|]. apply segments_no_line_feed, str_split_no_sep. }
    rewrite Hk in Hfull. apply Forall_app in Hfull. apply Hfull. }
  clear Htr Hk. induction evs as [|ev rest IH]; [split; constructor|].
  destruct ev; cbn in Hall |- *;
    try (destruct (IH Hall) as [H1 H2]; split;
         [exact H1 | constructor; [left; reflexivity | exact H2]]).
  - inversion Hall as [|? ? Hev Hrest]; subst. destruct (IH Hrest) as [H1 H2].
    split; constructor; auto.
  - inversion Hall as [|? ? Hev Hrest]; subst. destruct (IH Hrest) as [H1 H2].
    split; [exact H1|]. constructor; auto.
Qed.

Lemma str_append_empty s : s +:+ EmptyString = s.
Proof.
  induction s as [|c rest IH]; [reflexivity|].
  change (String c (rest +:+ EmptyString) = String c rest). now rewrite IH.
Qed.

Lemma typed_text_segments lines :
  typed_text (segments lines) = str_join LF lines.
Proof.
  induction lines as [|line rest IH]; [reflexivity|].
  destruct rest as [|line' rest'].
  - cbn. apply str_append_empty.
  - change (segments (line :: line' :: rest'))
      with (EWrite line TYPING_INTERVAL :: shift_enter
            :: segments (line' :: rest')).
    cbn [typed_text].
    replace (is_shift_enter shift_enter) with true by reflexivity.
    rewrite IH. reflexivity.
Qed.

(** A run of the typer in which no call fails: what it leaves in the
    trace depends on the clipboard alone. *)
Lemma run_typer_all_well m w :
  quiet w ->
  exists w', run type_clipboard_text m w = (m, w', Return tt) /\
             trace w' = trace w ++ typer_events (clipboard w).
Proof.
  intros Hq. unfold typer_events, full_keystrokes.
  destruct (clipboard w) as [|[|c s]] eqn:Hc.
  - rewrite (run_typer_nothing_to_type m w);
      [|split; apply Hq|rewrite Hc; reflexivity].
    eexists; split; [reflexivity|]. cbn. rewrite <- app_assoc. reflexivity.
  - rewrite (run_typer_nothing_to_type m w);
      [|split; apply Hq|rewrite Hc; reflexivity].
    eexists; split; [reflexivity|]. cbn. rewrite <- app_assoc. reflexivity.
  - destruct (run_typer_quiet m w c s Hc Hq) as (w' & Hrun & Htr).
    exists w'. split; [exact Hrun|]. rewrite Htr. reflexivity.
Qed.

Lemma typer_events_keystrokes v :
  List.filter is_keystroke (typer_events v) = full_keystrokes v.
Proof.
  unfold typer_events, full_keystrokes. destruct v as [|[|c s]]; try reflexivity.
  cbn [truthy]. rewrite !List.filter_app. cbn [List.filter is_keystroke is_write is_hotkey orb app].
  rewrite app_nil_r. apply segments_all_keystrokes.
Qed.

(** X1.  When no call fails the typer types the clipboard text and nothing
    else: the characters of its write batches, with a line break for
    each shift+enter, are the text read from the clipboard. *)
Theorem typer_types_the_clipboard_text text m w :
  clipboard w = PyStr text -> quiet w ->
  typed_text (keystrokes_of type_clipboard_text m w) = text.
Proof.
  intros Hc Hq. destruct (run_typer_all_well m w Hq) as (w' & Hrun & Htr).
  unfold keystrokes_of, events_of. rewrite Hrun. cbn [proc_of fst snd].
  rewrite Htr, drop_app_length, typer_events_keystrokes, Hc.
  unfold full_keystrokes. destruct text as [|c s]; [reflexivity|].
  cbn [truthy]. rewrite typed_text_segments. apply str_join_split.
Qed.

Lemma typer_types_the_clipboard_text_witness :
  let w := fresh_proc 1 (PyStr two_lines) no_faults in
  clipboard w = PyStr two_lines /\ quiet w /\
  typed_text (keystrokes_of type_clipboard_text (idle_machine false) w)
  = two_lines.
Proof.
  intros w. split; [reflexivity|]. split; [intros n; reflexivity|].
  apply typer_types_the_clipboard_text; [reflexivity | intros n; reflexivity].
Defined.

Lemma str_split_snoc_sep sep s :
  str_split sep (s +:+ String sep EmptyString)
  = str_split sep s ++ [EmptyString].
Proof.
  induction s as [|c rest IH].
  - change (str_split sep (String sep EmptyString) = [EmptyString; EmptyString]).
    cbn. rewrite Ascii.eqb_refl. reflexivity.
  - change (str_split sep (String c (rest +:+ String sep EmptyString))
            = str_split sep (String c rest) ++ [EmptyString]).
    cbn [str_split]. rewrite IH. destruct (Ascii.eqb c sep); [reflexivity|].
    destruct (str_split sep rest) as [|piece pieces] eqn:E.
    + now apply str_split_not_nil in E.
    + reflexivity.
Qed.

Lemma segments_snoc lines line :
  lines <> [] ->
  segments (lines ++ [line])
  = segments lines ++ [shift_enter; EWrite line TYPING_INTERVAL].
Proof.
  induction lines as [|l rest IH]; intros Hne; [congruence|].
  destruct rest as [|l' rest']; [reflexivity|].
  change (segments ((l :: l' :: rest') ++ [line]))
    with (EWrite l TYPING_INTERVAL :: shift_enter
          :: segments ((l' :: rest') ++ [line])).
  rewrite IH by discriminate. reflexivity.
Qed.

(** X4.  A clipboard text that ends with a line feed is not trimmed: after
    the keystrokes of the text before that line feed the typer presses
    shift+enter and then makes one more, empty, write. *)
Theorem typer_keeps_trailing_line_feed s m w :
  clipboard w = PyStr (s +:+ String LF EmptyString) -> quiet w ->
  keystrokes_of type_clipboard_text m w
  = segments (str_split LF s)
      ++ [shift_enter; EWrite EmptyString TYPING_INTERVAL].
Proof.
  intros Hc Hq. destruct (run_typer_all_well m w Hq) as (w' & Hrun & Htr).
  unfold keystrokes_of, events_of. rewrite Hrun. cbn [proc_of fst snd].
  rewrite Htr, drop_app_length, typer_events_keystrokes, Hc.
  unfold full_keystrokes.
  replace (truthy (PyStr (s +:+ String LF EmptyString))) with true
    by (destruct s; reflexivity).
  rewrite str_split_snoc_sep. apply segments_snoc, str_split_not_nil.
Qed.

Lemma typer_keeps_trailing_line_feed_witness :
  let w := fresh_proc 1 (PyStr ("ab" +:+ String LF EmptyString)) no_faults in
  clipboard w = PyStr ("ab" +:+ String LF EmptyString) /\ quiet w /\
  keystrokes_of type_clipboard_text (idle_machine false) w
  = segments (str_split LF "ab")
      ++ [shift_enter; EWrite EmptyString TYPING_INTERVAL].
Proof.
  intros w. split; [reflexivity|]. split; [intros n; reflexivity|].
  apply typer_keeps_trailing_line_feed; [reflexivity | intros n; reflexivity].
Defined.

(** ** Further facts: the listener and the typer together *)

Lemma exec_clipboard {X} (c : call X) m w :
  clipboard (proc_of (exec c m w)) = clipboard w.
Proof.
  destruct c; cbn; unfold outside, exec_close, close_file;
    repeat (case_match; cbn); reflexivity.
Qed.

Lemma run_clipboard {A} (p : prog A) : forall m w,
  clipboard (proc_of (run p m w)) = clipboard w.
Proof.
  induction p as [a|e|X c k IH]; intros m w; try reflexivity.
  cbn [run]. pose proof (exec_clipboard c m w) as Hc.
  destruct (exec c m w) as [[m' w'] o]. rewrite IH. exact Hc.
Qed.

Section ListenerTypes.
Context {K : Type} {EqK : EqDecision K} {CntK : Countable K}
        {R : Type} (canonical : R -> K).

(** X6.  When no call fails, the listener thread runs the typer once for
    each activation of the hotkey, one run after the other, and does
    nothing else: its trace is that of as many complete typer runs as
    the hotkey fired. *)
Theorem listener_types_once_per_activation (evs : list (key_event R)) :
  forall (hk : HotKey K) m w,
    quiet w ->
    result_of (listener_thread canonical hk evs m w) = Return tt /\
    machine_of (listener_thread canonical hk evs m w) = m /\
    trace (proc_of (listener_thread canonical hk evs m w))
    = trace w ++ concat (repeat (typer_events (clipboard w))
                           (fired_count (listen canonical hk evs))).
Proof.
  induction evs as [|ev rest IH]; intros hk m w Hq.
  - cbn. rewrite app_nil_r. repeat split.
  - cbn [listener_thread listen].
    destruct (deliver canonical hk ev) as [hk' fired]. destruct fired.
    + unfold on_activate.
      destruct (run_typer_all_well m w Hq) as (w' & Hrun & Htr).
      pose proof (run_faults type_clipboard_text m w) as Hf.
      pose proof (run_clipboard type_clipboard_text m w) as Hc.
      rewrite Hrun in Hf, Hc |- *. cbn [proc_of fst snd] in Hf, Hc.
      assert (Hq' : quiet w') by (intros n; rewrite Hf; apply Hq).
      destruct (IH hk' m w' Hq') as (Hres & Hm & Htr').
      split; [exact Hres|]. split; [exact Hm|].
      rewrite Htr', Htr, Hc.
      change (fired_count (true :: ?l)) with (S (fired_count l)).
      cbn [repeat concat]. rewrite <- !app_assoc. reflexivity.
    + change (fired_count (false :: ?l)) with (fired_count l).
      apply IH. exact Hq.
Qed.
End ListenerTypes.

Lemma listener_types_once_per_activation_witness :
  let w := fresh_proc 1 (PyStr two_lines) no_faults in
  let m := idle_machine false in
  let r := listener_thread canonical_name (HotKey_new HOTKEY_chord)
             sample_events m w in
  quiet w /\
  result_of r = Return tt /\ machine_of r = m /\
  trace (proc_of r)
  = trace w ++ concat (repeat (typer_events (clipboard w))
                         (fired_count (listen canonical_name
                                         (HotKey_new HOTKEY_chord)
                                         sample_events))).
Proof.
  intros w m r. split; [intros n; reflexivity|].
  apply listener_types_once_per_activation. intros n; reflexivity.
Defined.

Lemma start_hotkey_listener_survives_witness :
  let w := fresh_proc 1 (PyStr two_lines) (abort_at 3 FailSafeException) in
  (forall n e, faults w n = Some e -> survivable e = true) /\
  result_of (start_hotkey_listener canonical_name sample_events
               (idle_machine false) w) = Return tt.
Proof.
  intros w.
  assert (H : forall n e, faults w n = Some e -> survivable e = true).
  { intros n e. simpl. unfold abort_at.
    destruct (Nat.eqb n 3); intros [= <-]; reflexivity. }
  split; [exact H|].
  exact (start_hotkey_listener_survives canonical_name sample_events
           (idle_machine false) w H).
Defined.

(** ** Further facts: the lock guard and the teardown *)

Ltac norm_more :=
  repeat first
    [ progress norm
    | progress unfold quit_app, sys_exit, run_tray, set_icon
    | progress cbn [is_KeyboardInterrupt is_Exception
                    is_AttributeError_or_RuntimeError exit_status]
    | match goal with
      | |- context [message_is_ascii ?msg] =>
          let b := eval vm_compute in (message_is_ascii msg) in
          change (message_is_ascii msg) with b
      end ].

(** X8.  However [ensure_single_instance] ends, and whatever fails on its
    way, the lock is owned afterwards by whoever owned it before: the
    function never leaves the calling process in possession of it. *)
Theorem guard_never_keeps_the_lock p m w :
  at_startup w ->
  (forall fd, lock_owner m <> Some (pid w, fd)) ->
  lock_owner (machine_of (run (ensure_single_instance p) m w)) = lock_owner m.
Proof.
  intros [Hh Hf] Hown. destruct w as [id h ic fs cbs clip tr flt t].
  destruct m as [lo ex av]. cbn in Hh, Hf, Hown. subst h fs.
  destruct p; unfold ensure_single_instance; explore; try reflexivity.
  all: exfalso;
    try (match goal with
         | E : Nat.eqb ?a ?a = false |- _ =>
             rewrite Nat.eqb_refl in E; discriminate E
         end);
    repeat match goal with
           | E : Nat.eqb _ _ = true |- _ => apply Nat.eqb_eq in E; subst
           end;
    eapply Hown; reflexivity.
Qed.

Lemma guard_never_keeps_the_lock_witness :
  let m := idle_machine false in
  let w := fresh_proc 1 PyNone no_faults in
  at_startup w /\ (forall fd, lock_owner m <> Some (pid w, fd)) /\
  lock_owner (machine_of (run (ensure_single_instance Win32) m w))
  = lock_owner m.
Proof.
  intros m w.
  assert (Hs : at_startup w) by (split; reflexivity).
  assert (Ho : forall fd, lock_owner m <> Some (pid w, fd))
    by (intros fd; discriminate).
  split; [exact Hs|]. split; [exact Ho|].
  exact (guard_never_keeps_the_lock Win32 m w Hs Ho).
Defined.

(** X9.  [release_lock] is registered with [atexit] at most once by a call of
    the guard, as the last entry, and always when the guard answers
    [True]; an answer [True] also means that the global refers to the
    lock file object, that the lock file exists, and that every call of
    the guard went through. *)
Theorem guard_registers_release_lock p m w :
  at_startup w ->
  let r := run (ensure_single_instance p) m w in
  (atexit_funcs (proc_of r) = atexit_funcs w \/
   atexit_funcs (proc_of r) = atexit_funcs w ++ [cb_release_lock]) /\
  (result_of r = Return true ->
   atexit_funcs (proc_of r) = atexit_funcs w ++ [cb_release_lock] /\
   LOCK_FILE_HANDLE (proc_of r) = Some 0 /\
   lock_file_exists (machine_of r) = true /\
   available m (locking_module p) = true /\
   tick (proc_of r) = guard_calls p + tick w /\
   forall n, n < guard_calls p -> faults w (n + tick w) = None).
Proof.
  intros [Hh Hf]. destruct w as [id h ic fs cbs clip tr flt t].
  destruct m as [lo ex av]. cbn in Hh, Hf. subst h fs.
  destruct p; unfold ensure_single_instance; cbv zeta; explore.
  all: split; [first [left; reflexivity | right; reflexivity]|].
  all: intros Hres; try discriminate Hres.
  all: repeat split; try assumption.
  all: intros nf Hn; cbn in Hn;
    assert (Hcases : nf = 0 \/ nf = 1 \/ nf = 2 \/ nf = 3 \/ nf = 4 \/ nf = 5)
      by lia;
    destruct Hcases as [-> | [-> | [-> | [-> | [-> | ->]]]]];
    first [assumption | lia].
Qed.

Lemma guard_registers_release_lock_witness :
  let m := idle_machine false in
  let w := fresh_proc 1 PyNone no_faults in
  let r := run (ensure_single_instance Posix) m w in
  at_startup w /\ result_of r = Return true /\
  atexit_funcs (proc_of r) = atexit_funcs w ++ [cb_release_lock] /\
  LOCK_FILE_HANDLE (proc_of r) = Some 0 /\
  lock_file_exists (machine_of r) = true.
Proof.
  intros m w r.
  assert (Hs : at_startup w) by (split; reflexivity).
  assert (Hr : result_of r = Return true) by (vm_compute; reflexivity).
  destruct (proj2 (guard_registers_release_lock Posix m w Hs) Hr)
    as (Ha & Hh & Hex & _).
  repeat split; assumption.
Defined.

Lemma fd_is_open_lookup w f fd :
  files w !! f = Some (FileObj fd false) -> fd_is_open w fd = true.
Proof.
  intros Hf. unfold fd_is_open. apply existsb_exists.
  exists (FileObj fd false). split.
  - apply list_elem_of_In. eapply list_elem_of_lookup_2. exact Hf.
  - cbn. rewrite Nat.eqb_refl. reflexivity.
Qed.

(** X11.  With the lock file open and locked by this process, and no call
    failing, [release_lock] gives up the lock, closes the file object
    and removes the lock file. *)
Theorem release_lock_releases p m w f fd :
  LOCK_FILE_HANDLE w = Some f -> files w !! f = Some (FileObj fd false) ->
  lock_owner m = Some (pid w, fd) -> lock_file_exists m = true ->
  available m (locking_module p) = true -> quiet w ->
  let r := run (release_lock p) m w in
  result_of r = Return tt /\
  lock_owner (machine_of r) = None /\
  lock_file_exists (machine_of r) = false /\
  files (proc_of r) = <[f := FileObj fd true]> (files w) /\
  files (proc_of r) !! f = Some (FileObj fd true).
Proof.
  intros Hh Hfile Hlo Hex Hav Hq.
  pose proof (fd_is_open_lookup w f fd Hfile) as Hopen.
  pose proof (lookup_lt_Some _ _ _ Hfile) as Hlt.
  destruct w as [id h ic fs cbs clip tr flt t].
  destruct m as [lo ex av]. cbn in Hh, Hfile, Hlo, Hex, Hav, Hopen, Hlt.
  subst h lo ex. unfold fd_is_open in Hopen. cbn in Hopen.
  assert (Hq' : forall k, flt k = None) by exact Hq.
  destruct p; unfold release_lock; cbv zeta; cbn in Hav; norm;
    repeat (first [rewrite Hfile | rewrite Hav | rewrite Hq' | rewrite Hopen
                  | rewrite Nat.eqb_refl]; norm).
  all: repeat split; apply list_lookup_insert_eq; exact Hlt.
Qed.

Lemma release_lock_releases_witness :
  let m := Machine (Some (1, 3)) true (fun _ => true) in
  let w := Proc 1 (Some 0) false [FileObj 3 false] [cb_release_lock] PyNone []
             no_faults 0 in
  let r := run (release_lock Posix) m w in
  LOCK_FILE_HANDLE w = Some 0 /\ files w !! 0 = Some (FileObj 3 false) /\
  lock_owner m = Some (pid w, 3) /\ lock_file_exists m = true /\
  available m (locking_module Posix) = true /\ quiet w /\
  result_of r = Return tt /\
  lock_owner (machine_of r) = None /\
  lock_file_exists (machine_of r) = false.
Proof.
  intros m w r.
  assert (Hq : quiet w) by (intros n; reflexivity).
  destruct (release_lock_releases Posix m w 0 3 eq_refl eq_refl eq_refl eq_refl
              eq_refl Hq) as (Hres & Hlo & Hex & _).
  repeat split; assumption.
Defined.

(** X12.  With the lock file open, whatever I/O errors the unlock, the close
    or the removal report, and whether or not the locking module can be
    imported, [release_lock] returns normally, the file object is closed
    and this process does not own the lock afterwards. *)
Theorem release_lock_closes_despite_failures p m w f fd :
  LOCK_FILE_HANDLE w = Some f -> files w !! f = Some (FileObj fd false) ->
  guard_failures w ->
  let r := run (release_lock p) m w in
  result_of r = Return tt /\
  files (proc_of r) !! f = Some (FileObj fd true) /\
  lock_owner (machine_of r) <> Some (pid w, fd).
Proof.
  intros Hh Hfile Hg. pose proof (lookup_lt_Some _ _ _ Hfile) as Hlt.
  destruct w as [id h ic fs cbs clip tr flt t].
  destruct m as [lo ex av]. cbn in Hh, Hfile, Hlt. subst h.
  destruct p; unfold release_lock; cbv zeta; norm;
    repeat (first [rewrite Hfile | split_one]; norm).
  all: destruct Hg as [Himp Hio]; cbn in Himp, Hio.
  all: try match goal with
           | F : _ = Some ?e, G : is_ImportError ?e = false |- _ =>
               rewrite (Himp e F) in G; discriminate G
           end.
  all: try match goal with
           | F : _ = Some ?e, G : is_OSError ?e = false |- _ =>
               first [ rewrite (Hio 0 e F) in G | rewrite (Hio 1 e F) in G
                     | rewrite (Hio 2 e F) in G | rewrite (Hio 3 e F) in G
                     | rewrite (Hio 4 e F) in G ];
               discriminate G
           end.
  all: try (exfalso; congruence).
  all: split; [reflexivity|].
  all: split; [apply list_lookup_insert_eq; exact Hlt|].
  all: try discriminate.
  all: intros [= -> ->];
    repeat match goal with
           | E : Nat.eqb ?a ?a = false |- _ =>
               rewrite Nat.eqb_refl in E; discriminate E
           end.
Qed.

Lemma release_lock_closes_despite_failures_witness :
  let m := Machine (Some (1, 3)) false (fun _ => false) in
  let w := Proc 1 (Some 0) false [FileObj 3 false] [cb_release_lock] PyNone []
             (abort_at 1 PermissionError) 0 in
  let r := run (release_lock Win32) m w in
  LOCK_FILE_HANDLE w = Some 0 /\ files w !! 0 = Some (FileObj 3 false) /\
  guard_failures w /\
  result_of r = Return tt /\
  files (proc_of r) !! 0 = Some (FileObj 3 true) /\
  lock_owner (machine_of r) <> Some (pid w, 3).
Proof.
  intros m w r.
  assert (Hg : guard_failures w).
  { split.
    - intros e. cbn. discriminate.
    - intros n e. cbn. unfold abort_at.
      destruct (Nat.eqb (S (n + 0)) 1); intros [= <-]; reflexivity. }
  split; [reflexivity|]. split; [reflexivity|]. split; [exact Hg|].
  exact (release_lock_closes_despite_failures Win32 m w 0 3 eq_refl eq_refl Hg).
Defined.

Lemma release_lock_with_closed_handle_witness :
  let m := fst (after_startup Win32) in
  let w := snd (after_startup Win32) in
  LOCK_FILE_HANDLE w = Some 0 /\ files w !! 0 = Some (FileObj 3 true) /\
  available m (locking_module Win32) = true /\
  faults w (tick w) = None /\ faults w (S (tick w)) = None /\
  result_of (run (release_lock Win32) m w) = Raise ValueError.
Proof.
  intros m w.
  assert (H1 : LOCK_FILE_HANDLE w = Some 0) by (vm_compute; reflexivity).
  assert (H2 : files w !! 0 = Some (FileObj 3 true)) by (vm_compute; reflexivity).
  assert (H3 : available m (locking_module Win32) = true)
    by (vm_compute; reflexivity).
  assert (H4 : faults w (tick w) = None) by (vm_compute; reflexivity).
  assert (H5 : faults w (S (tick w)) = None) by (vm_compute; reflexivity).
  repeat (split; [assumption|]).
  exact (release_lock_with_closed_handle Win32 m w 0 3 H1 H2 H3 H4 H5).
Defined.

Lemma start_in_turn_all_true_witness :
  let ws := [fresh_proc 1 PyNone no_faults; fresh_proc 2 PyNone no_faults;
             fresh_proc 3 PyNone no_faults] in
  let m := idle_machine false in
  Forall (fun w => at_startup w /\ quiet w) ws /\
  lock_owner m = None /\ available m (locking_module Posix) = true /\
  start_in_turn Posix m ws = (fun _ => Return true) <$> ws.
Proof.
  intros ws m.
  assert (Hws : Forall (fun w => at_startup w /\ quiet w) ws).
  { repeat constructor; intros n; reflexivity. }
  split; [exact Hws|]. split; [reflexivity|]. split; [reflexivity|].
  exact (start_in_turn_all_true Posix ws m Hws eq_refl eq_refl).
Defined.

(** ** Further facts: the tray and the main block *)

(** X14.  [quit_app] never returns normally.  When its print goes
    through it ends with [sys.exit(0)], also when stopping the icon
    fails with [AttributeError] or [RuntimeError]; only another
    exception of [icon.stop()] comes out instead, and without an icon it
    makes no call to the tray.  When the print itself raises, that
    exception comes out and nothing else is done. *)
Theorem quit_app_exits icon m w :
  let r := run (quit_app icon) m w in
  (exists e, result_of r = Raise e) /\
  result_of r
  = match faults w (tick w) with
    | Some e => Raise e
    | None =>
        if icon then
          match faults w (S (tick w)) with
          | Some e => if is_AttributeError_or_RuntimeError e
                      then Raise (SystemExit 0) else Raise e
          | None => Raise (SystemExit 0)
          end
        else Raise (SystemExit 0)
    end /\
  events_of (quit_app icon) m w
  = match faults w (tick w) with
    | Some _ => []
    | None =>
        EPrint (Msg "üëã Exiting CopyCat...")
          :: (if icon then
                match faults w (S (tick w)) with
                | Some _ => []
                | None => [EIconStop]
                end
              else [])
    end /\
  tick (proc_of r)
  = match faults w (tick w) with
    | Some _ => S (tick w)
    | None => if icon then S (S (tick w)) else S (tick w)
    end.
Proof.
  destruct w as [id h ic fs cbs clip tr flt t]. destruct m as [lo ex av].
  cbv zeta. unfold events_of. norm_more.
  destruct (flt t) as [e0|] eqn:F0; norm_more.
  { split; [eexists; reflexivity|]. split; [reflexivity|].
    cbn [trace tick]. rewrite drop_all. split; reflexivity. }
  destruct icon; norm_more.
  - destruct (flt (S t)) as [e|] eqn:F; norm_more.
    + destruct (is_AttributeError_or_RuntimeError e) eqn:E; norm_more.
      all: split; [eexists; reflexivity|]; split; [reflexivity|];
        cbn [trace tick]; rewrite drop_app_length; split; reflexivity.
    + split; [eexists; reflexivity|]. split; [reflexivity|].
      cbn [trace tick]. rewrite <- app_assoc, drop_app_length.
      split; reflexivity.
  - split; [eexists; reflexivity|]. split; [reflexivity|].
    cbn [trace tick]. rewrite drop_app_length. split; reflexivity.
Qed.

(** X15.  A run of [run_tray] in which the icon file opens, or fails to open
    with an I/O error (it is missing, say), and nothing else fails:
    the tray icon is created, the message printed and the icon run, in
    this order, and [run_tray] returns when the icon's loop does. *)
Theorem run_tray_missing_icon_is_not_fatal m w :
  (forall e, faults w (tick w) = Some e -> is_OSError e = true) ->
  (forall n, faults w (S n + tick w) = None) ->
  let r := run run_tray m w in
  result_of r = Return tt /\
  events_of run_tray m w
  = [EIconCreate; EPrint (Msg "üê± CopyCat is running in the system tray");
     EIconRun] /\
  ICON_INSTANCE (proc_of r) = true /\
  machine_of r = m.
Proof.
  intros Hopen Hrest. destruct w as [id h ic fs cbs clip tr flt t].
  destruct m as [lo ex av]. cbn in Hopen, Hrest. cbv zeta. unfold events_of.
  pose proof (Hrest 0) as H1. pose proof (Hrest 1) as H2.
  pose proof (Hrest 2) as H3. pose proof (Hrest 3) as H4.
  cbn in H1, H2, H3, H4.
  norm_more. destruct (flt t) as [e|] eqn:F; norm_more.
  - rewrite (Hopen e eq_refl). norm_more.
    repeat (first [rewrite H1 | rewrite H2 | rewrite H3 | rewrite H4];
            norm_more).
    cbn [trace]. rewrite <- !app_assoc, drop_app_length. repeat split.
  - repeat (first [rewrite H1 | rewrite H2 | rewrite H3 | rewrite H4];
            norm_more).
    cbn [trace]. rewrite <- !app_assoc, drop_app_length. repeat split.
Qed.

Lemma run_tray_missing_icon_is_not_fatal_witness :
  let w := fresh_proc 1 PyNone (abort_at 0 FileNotFoundError) in
  let m := idle_machine false in
  (forall e, faults w (tick w) = Some e -> is_OSError e = true) /\
  (forall n, faults w (S n + tick w) = None) /\
  result_of (run run_tray m w) = Return tt /\
  events_of run_tray m w
  = [EIconCreate; EPrint (Msg "üê± CopyCat is running in the system tray");
     EIconRun].
Proof.
  intros w m.
  assert (H0 : forall e, faults w (tick w) = Some e -> is_OSError e = true)
    by (intros e [= <-]; reflexivity).
  assert (H1 : forall n, faults w (S n + tick w) = None)
    by (intros n; reflexivity).
  split; [exact H0|]. split; [exact H1|].
  destruct (run_tray_missing_icon_is_not_fatal m w H0 H1) as (Hr & Hev & _).
  split; assumption.
Defined.

(** X16.  An exception of the icon's loop ends the process.  Whether the
    icon file opened or the fallback icon was drawn, once the icon is
    created and the message printed, a [KeyboardInterrupt] out of
    [Icon.run] leads through [quit_app] to exit status 0, and any
    [Exception] to a printed error, a stop of the icon and exit status
    1, nothing else failing; a failure of the stop with [AttributeError]
    or [RuntimeError] does not change this. *)
Theorem run_tray_icon_loop_failure m w e :
  (forall e0, faults w (tick w) = Some e0 -> is_OSError e0 = true) ->
  faults w (tray_run_call w) = Some e ->
  survivable e = true ->
  (forall n, tick w < n -> n <> tray_run_call w -> n <> tray_stop_call w e ->
             faults w n = None) ->
  (forall e', faults w (tray_stop_call w e) = Some e' ->
              is_AttributeError_or_RuntimeError e' = true) ->
  let r := run run_tray m w in
  result_of r = Raise (SystemExit (if is_KeyboardInterrupt e then 0 else 1)) /\
  exit_status (result_of r) = (if is_KeyboardInterrupt e then 0 else 1)%Z /\
  events_of run_tray m w
  = [EIconCreate; EPrint (Msg "üê± CopyCat is running in the system tray");
     EPrint (if is_KeyboardInterrupt e
             then Msg "üëã Exiting CopyCat due to keyboard interrupt..."
             else MsgExn "Error in tray icon: " e)]
    ++ (if is_KeyboardInterrupt e then [EPrint (Msg "üëã Exiting CopyCat...")]
        else [])
    ++ match faults w (tray_stop_call w e) with
       | Some _ => []
       | None => [EIconStop]
       end.
Proof.
  intros Hopen Hrun Hs Hrest Hstop.
  destruct w as [id h ic fs cbs clip tr flt t]. destruct m as [lo ex av].
  unfold tray_stop_call, tray_run_call in *.
  cbn [faults tick] in Hopen, Hrun, Hrest, Hstop |- *.
  cbv zeta. unfold events_of. unfold survivable in Hs.
  destruct (flt t) as [e0|] eqn:F0; cbv beta iota in Hrun, Hrest, Hstop |- *.
  - pose proof (Hopen e0 eq_refl) as Ho.
    assert (H1 : flt (S t) = None) by (apply Hrest; destruct (is_KeyboardInterrupt e); lia).
    assert (H2 : flt (S (S t)) = None) by (apply Hrest; destruct (is_KeyboardInterrupt e); lia).
    assert (H3 : flt (S (S (S t))) = None) by (apply Hrest; destruct (is_KeyboardInterrupt e); lia).
    cbn [Nat.add] in Hrun.
    norm_more. rewrite F0. norm_more. rewrite Ho. norm_more.
    repeat (first [rewrite H1 | rewrite H2 | rewrite H3 | rewrite Hrun];
            norm_more).
    destruct (is_KeyboardInterrupt e) eqn:Hk; norm_more.
    + assert (H5 : flt (S (S (S (S (S t))))) = None) by (apply Hrest; lia).
      assert (H6 : flt (S (S (S (S (S (S t)))))) = None) by (apply Hrest; lia).
      cbn [Nat.add] in Hstop |- *.
      repeat (first [rewrite H5 | rewrite H6]; norm_more).
      destruct (flt (S (S (S (S (S (S (S t))))))) ) as [e'|] eqn:F7; norm_more.
      * rewrite (Hstop e' eq_refl). norm_more.
        cbn [trace]. rewrite <- !app_assoc, drop_app_length. repeat split.
      * cbn [trace]. rewrite <- !app_assoc, drop_app_length. repeat split.
    + rewrite orb_false_r in Hs. rewrite Hs. norm_more.
      cbn [Nat.add] in Hstop |- *.
      destruct (flt (S (S (S (S (S t)))))) as [e'|] eqn:F5; norm_more.
      * rewrite (Hstop e' eq_refl). norm_more.
        cbn [trace]. rewrite <- !app_assoc, drop_app_length. repeat split.
      * cbn [trace]. rewrite <- !app_assoc, drop_app_length. repeat split.
  - assert (H1 : flt (S t) = None) by (apply Hrest; destruct (is_KeyboardInterrupt e); lia).
    assert (H2 : flt (S (S t)) = None) by (apply Hrest; destruct (is_KeyboardInterrupt e); lia).
    cbn [Nat.add] in Hrun.
    norm_more. rewrite F0. norm_more.
    repeat (first [rewrite H1 | rewrite H2 | rewrite Hrun]; norm_more).
    destruct (is_KeyboardInterrupt e) eqn:Hk; norm_more.
    + assert (H4 : flt (S (S (S (S t)))) = None) by (apply Hrest; lia).
      assert (H5 : flt (S (S (S (S (S t))))) = None) by (apply Hrest; lia).
      cbn [Nat.add] in Hstop |- *.
      repeat (first [rewrite H4 | rewrite H5]; norm_more).
      destruct (flt (S (S (S (S (S (S t))))))) as [e'|] eqn:F6; norm_more.
      * rewrite (Hstop e' eq_refl). norm_more.
        cbn [trace]. rewrite <- !app_assoc, drop_app_length. repeat split.
      * cbn [trace]. rewrite <- !app_assoc, drop_app_length. repeat split.
    + rewrite orb_false_r in Hs. rewrite Hs. norm_more.
      cbn [Nat.add] in Hstop |- *.
      destruct (flt (S (S (S (S t))))) as [e'|] eqn:F4; norm_more.
      * rewrite (Hstop e' eq_refl). norm_more.
        cbn [trace]. rewrite <- !app_assoc, drop_app_length. repeat split.
      * cbn [trace]. rewrite <- !app_assoc, drop_app_length. repeat split.
Qed.

Lemma run_tray_icon_loop_failure_witness :
  let w := fresh_proc 1 PyNone
             (two_aborts 0 FileNotFoundError 4 RuntimeError) in
  let m := idle_machine false in
  (forall e0, faults w (tick w) = Some e0 -> is_OSError e0 = true) /\
  faults w (tray_run_call w) = Some RuntimeError /\
  survivable RuntimeError = true /\
  (forall n, tick w < n -> n <> tray_run_call w ->
             n <> tray_stop_call w RuntimeError -> faults w n = None) /\
  (forall e', faults w (tray_stop_call w RuntimeError) = Some e' ->
              is_AttributeError_or_RuntimeError e' = true) /\
  result_of (run run_tray m w) = Raise (SystemExit 1) /\
  exit_status (result_of (run run_tray m w)) = 1%Z.
Proof.
  intros w m.
  assert (H0 : forall e0, faults w (tick w) = Some e0 -> is_OSError e0 = true)
    by (intros e0 [= <-]; reflexivity).
  assert (H1 : faults w (tray_run_call w) = Some RuntimeError) by reflexivity.
  assert (H2 : forall n, tick w < n -> n <> tray_run_call w ->
                 n <> tray_stop_call w RuntimeError -> faults w n = None).
  { intros n Hn Hr _. cbn in Hn, Hr |- *. unfold two_aborts, abort_at.
    destruct (Nat.eqb n 0) eqn:E0; [apply Nat.eqb_eq in E0; lia|].
    destruct (Nat.eqb n 4) eqn:E4; [apply Nat.eqb_eq in E4; lia|].
    reflexivity. }
  assert (H3 : forall e', faults w (tray_stop_call w RuntimeError) = Some e' ->
                          is_AttributeError_or_RuntimeError e' = true)
    by (intros e'; discriminate).
  split; [exact H0|]. split; [exact H1|]. split; [reflexivity|].
  split; [exact H2|]. split; [exact H3|].
  destruct (run_tray_icon_loop_failure m w RuntimeError H0 H1 eq_refl H2 H3)
    as (Hr & Hst & _).
  split; assumption.
Defined.

(** X17.  A first instance: on a machine where nobody holds the lock, with
    the locking module at hand and no call failing, the main block
    prints its message, starts the hotkey listener as a daemon thread,
    and only then creates and runs the tray icon; the listener is
    started exactly once. *)
Theorem main_first_instance p m w :
  at_startup w -> quiet w -> lock_owner m = None ->
  available m (locking_module p) = true ->
  result_of (run (main p) m w) = Return tt /\
  events_of (main p) m w
  = [EPrint (Msg ("üê± CopyCat is running in the tray. Press " +:+ HOTKEY
                  +:+ " to type clipboard."));
     EThreadStart cb_start_hotkey_listener true;
     EIconCreate;
     EPrint (Msg "üê± CopyCat is running in the system tray");
     EIconRun] /\
  atexit_funcs (proc_of (run (main p) m w))
  = atexit_funcs w ++ [cb_release_lock].
Proof.
  intros [Hh Hf] Hq Hlo Hav. destruct w as [id h ic fs cbs clip tr flt t].
  destruct m as [lo ex av]. cbn in Hh, Hf, Hlo, Hav. subst h fs lo.
  assert (Hq' : forall k, flt k = None) by exact Hq.
  unfold events_of.
  destruct p; unfold main, ensure_single_instance; cbn in Hav; norm_more;
    repeat (first [rewrite Hav | rewrite Hq' | rewrite Nat.eqb_refl]; norm_more);
    cbn [trace negb]; norm_more;
    repeat (first [rewrite Hav | rewrite Hq' | rewrite Nat.eqb_refl]; norm_more);
    cbn [trace atexit_funcs]; rewrite <- !app_assoc, drop_app_length;
    repeat split.
Qed.

Lemma main_first_instance_witness :
  let w := fresh_proc 1 PyNone no_faults in
  let m := idle_machine false in
  at_startup w /\ quiet w /\ lock_owner m = None /\
  available m (locking_module Win32) = true /\
  result_of (run (main Win32) m w) = Return tt /\
  List.filter is_thread_start (events_of (main Win32) m w)
  = [EThreadStart cb_start_hotkey_listener true].
Proof.
  intros w m.
  assert (Hs : at_startup w) by (split; reflexivity).
  assert (Hq : quiet w) by (intros n; reflexivity).
  split; [exact Hs|]. split; [exact Hq|]. split; [reflexivity|].
  split; [reflexivity|].
  destruct (main_first_instance Win32 m w Hs Hq eq_refl eq_refl)
    as (Hr & Hev & _).
  split; [exact Hr|]. rewrite Hev. reflexivity.
Defined.

